(** * A movie recommender: filter, genre catalog and interactive prompts

    Shallow embedding of [main.py].  The data frame is a list of rows, a
    missing cell (pandas' NaN) is [None], and Python floats are the
    binary64 numbers of [PrimFloat].  A Python string is the [string] of
    the bytes of its UTF-8 form.  White space is trimmed as Python trims
    it, for all of Unicode, and a comparison of a lower-cased line with
    an ASCII word is as Python makes it.  Title case, digits and the
    search in a genre field are followed for ASCII text; where the
    program would look at the case or the digits of other text the model
    says so and stops ([Beyond]) or asks a parameter.  A frame is one
    whose title column holds text and whose rating column holds numbers.

    The library calls this development does not look into are
    parameters: TextBlob's sentiment polarity, the compiling and the
    search of a regular expression behind [Series.str.contains], and
    Python's [float()] parser.  An exception that the program does not
    catch leaves no result: [recommend_movies] relates a call to the
    replies it can return, and a call that raises has none. *)

From Stdlib Require Import Floats Ascii.
From stdpp Require Import gmap strings list sorting pretty.

Set Warnings "-inexact-float".

(** ** Python string methods *)

Module Py.

Definition code (c : ascii) : N := N_of_ascii c.

Definition between (lo hi : N) (c : ascii) : bool :=
  (lo <=? code c)%N && (code c <=? hi)%N.

Definition isupper (c : ascii) : bool := between 65 90 c.
Definition islower (c : ascii) : bool := between 97 122 c.
Definition isdigit_char (c : ascii) : bool := between 48 57 c.

(** White space of one byte: tab to carriage return, the four separators
    28..31 and the blank. *)
Definition isspace (c : ascii) : bool :=
  between 9 13 c || between 28 31 c || (code c =? 32)%N.

Definition lower_char (c : ascii) : ascii :=
  if isupper c then ascii_of_N (code c + 32) else c.
Definition upper_char (c : ascii) : ascii :=
  if islower c then ascii_of_N (code c - 32) else c.

(** The Kelvin sign U+212A, the one character outside ASCII whose lower
    case is an ASCII letter. *)
Definition kelvin_sign (c1 c2 c3 : ascii) : bool :=
  (code c1 =? 226)%N && (code c2 =? 132)%N && (code c3 =? 170)%N.

(** [str.lower], as far as a comparison with ASCII text can tell: the
    letters A to Z and the Kelvin sign are put in lower case.  The other
    characters are left as they are; their lower case in Python, too, is
    outside ASCII. *)
Fixpoint lower (s : string) : string :=
  match s with
  | EmptyString => EmptyString
  | String c1 s1 =>
      match s1 with
      | String c2 (String c3 s3) =>
          if kelvin_sign c1 c2 c3 then String "k" (lower s3)
          else String (lower_char c1) (lower s1)
      | _ => String (lower_char c1) (lower s1)
      end
  end.

Definition iscased (c : ascii) : bool := islower c || isupper c.

(** [str.title], of ASCII text: a character that follows a cased one is
    put in lower case, any other in upper case. *)
Fixpoint title_from (previous_is_cased : bool) (s : string) : string :=
  match s with
  | EmptyString => EmptyString
  | String c s' =>
      String (if previous_is_cased then lower_char c else upper_char c)
             (title_from (iscased c) s')
  end.
Definition title (s : string) : string := title_from false s.

(** The white space of more than one byte: U+0085 and U+00A0, then
    U+1680, U+2000 to U+200A, U+2028, U+2029, U+202F, U+205F and U+3000. *)
Definition two_byte_space (c1 c2 : ascii) : bool :=
  (code c1 =? 194)%N && ((code c2 =? 133)%N || (code c2 =? 160)%N).

Definition three_byte_space (c1 c2 c3 : ascii) : bool :=
  ((code c1 =? 225)%N && (code c2 =? 154)%N && (code c3 =? 128)%N)
  || ((code c1 =? 226)%N && (code c2 =? 128)%N
      && (between 128 138 c3 || between 168 169 c3 || (code c3 =? 175)%N))
  || ((code c1 =? 226)%N && (code c2 =? 129)%N && (code c3 =? 159)%N)
  || ((code c1 =? 227)%N && (code c2 =? 128)%N && (code c3 =? 128)%N).

(** The text is one character of white space. *)
Definition is_space_char (s : string) : bool :=
  match s with
  | String c EmptyString => isspace c
  | String c1 (String c2 EmptyString) => two_byte_space c1 c2
  | String c1 (String c2 (String c3 EmptyString)) => three_byte_space c1 c2 c3
  | _ => false
  end.

(** [str.lstrip] *)
Fixpoint lstrip (s : string) : string :=
  match s with
  | EmptyString => EmptyString
  | String c1 s1 =>
      if isspace c1 then lstrip s1
      else match s1 with
           | String c2 s2 =>
               if two_byte_space c1 c2 then lstrip s2
               else match s2 with
                    | String c3 s3 =>
                        if three_byte_space c1 c2 c3 then lstrip s3 else s
                    | EmptyString => s
                    end
           | EmptyString => s
           end
  end.

(** [str.rstrip]: what is left of the tail, with the character before
    it, is dropped when it is one character of white space. *)
Fixpoint rstrip (s : string) : string :=
  match s with
  | EmptyString => EmptyString
  | String c s' =>
      if is_space_char (String c (rstrip s')) then EmptyString
      else String c (rstrip s')
  end.

(** [str.strip] *)
Definition strip (s : string) : string := rstrip (lstrip s).

(** [str.isascii] *)
Fixpoint isascii (s : string) : bool :=
  match s with
  | EmptyString => true
  | String c s' => (code c <? 128)%N && isascii s'
  end.

Fixpoint all_digits (s : string) : bool :=
  match s with
  | EmptyString => true
  | String c s' => isdigit_char c && all_digits s'
  end.

(** [str.isdigit], of ASCII text: at least one character, and digits
    only. *)
Definition isdigit (s : string) : bool :=
  match s with
  | EmptyString => false
  | _ => all_digits s
  end.

Fixpoint int_from (acc : Z) (s : string) : Z :=
  match s with
  | EmptyString => acc
  | String c s' => int_from (10 * acc + Z.of_N (code c - 48)) s'
  end.

(** [int] on a string of ASCII digits, of any length, as Python converts
    it before version 3.11 and, since then, with the limit of 4300 digits
    switched off. *)
Definition int (s : string) : Z := int_from 0 s.

(** Truth value of a string: the empty string is false. *)
Definition truthy (s : string) : bool :=
  match s with EmptyString => false | _ => true end.

Fixpoint startswith (p s : string) : bool :=
  match p, s with
  | EmptyString, _ => true
  | String a p', String b s' => bool_decide (a = b) && startswith p' s'
  | String _ _, EmptyString => false
  end.

(** [p in s] *)
Fixpoint contains (p s : string) : bool :=
  startswith p s ||
  match s with
  | EmptyString => false
  | String _ s' => contains p s'
  end.

(** [str.split(', ')]: the pieces between the non-overlapping
    occurrences of the separator, scanned from the left. *)
Fixpoint split_comma_space (s : string) : list string :=
  match s with
  | EmptyString => [EmptyString]
  | String c s' =>
      match s' with
      | String d s'' =>
          if bool_decide (c = ","%char) && bool_decide (d = " "%char)
          then EmptyString :: split_comma_space s''
          else match split_comma_space s' with
               | [] => [String c EmptyString]
               | piece :: pieces => String c piece :: pieces
               end
      | EmptyString => [String c EmptyString]
      end
  end.

End Py.

(** ** The data frame *)

(** One row of [movies_df], with the four required columns. *)
Record Movie := {
  Series_Title : string;
  Genre : option string;
  Overview : option string;
  IMDB_Rating : float
}.

(** The texts that [pd.read_csv] reads as a missing cell. *)
Definition na_values : list string :=
  [""; "#N/A"; "#N/A N/A"; "#NA"; "-1.#IND"; "-1.#QNAN"; "-NaN"; "-nan";
   "1.#IND"; "1.#QNAN"; "<NA>"; "N/A"; "NA"; "NULL"; "NaN"; "None"; "n/a";
   "nan"; "null"].

(** A text cell as [pd.read_csv] delivers it in [load_data]: an empty cell,
    or one that holds a marker of a missing value, is NaN. *)
Definition read_cell (text : string) : option string :=
  if bool_decide (text ∈ na_values) then None else Some text.

Definition read_row (title genre overview : string) (rating : float) : Movie :=
  {| Series_Title := title; Genre := read_cell genre;
     Overview := read_cell overview; IMDB_Rating := rating |}.

(** [Series.dropna] *)
Definition dropna {A} (column : list (option A)) : list A := omap id column.

(** ** Library calls *)

(** The library functions the program calls and this development does
    not look into. *)
Class Library := {
  (** [TextBlob(text).sentiment.polarity] *)
  polarity : string → float;
  (** [re.compile(pattern, re.IGNORECASE)] does not raise [re.error],
      asked only for a pattern that holds a metacharacter *)
  re_compiles : string → bool;
  (** [re.search(pattern, text, re.IGNORECASE) is not None], asked only
      for a pattern that holds a metacharacter or when the pattern or
      the text is not ASCII *)
  re_search : string → string → bool;
  (** [float(text)], [None] for a [ValueError] *)
  float_of : string → option float
}.

(** The characters that are not literals in a regular expression. *)
Definition regex_special (c : ascii) : bool :=
  bool_decide (c ∈ [".";"^";"$";"*";"+";"?";"{";"}";"[";"]";"\";"|";"(";")"]%char).

Fixpoint regex_plain (pattern : string) : bool :=
  match pattern with
  | EmptyString => true
  | String c rest => negb (regex_special c) && regex_plain rest
  end.

(** Whether a column has the [.str] accessor.  [pd.read_csv] makes a
    column of text of a column that holds a text, and of every column of
    a file without rows; a column of missing cells only is a column of
    floats, on which [.str] raises [AttributeError]. *)
Definition has_str (column : list (option string)) : bool :=
  match column with
  | [] => true
  | _ => existsb (λ cell, bool_decide (is_Some cell)) column
  end.

(** [Series.str.contains(pattern, case=False, na=False)] on one cell of a
    column of text.  The pattern is a regular expression; one made of
    literal characters is found where it occurs in the text, letter case
    aside, which for ASCII text is the case of A to Z. *)
Definition str_contains `{Library} (pattern : string) (cell : option string) : bool :=
  match cell with
  | None => false
  | Some text =>
      if regex_plain pattern && Py.isascii pattern && Py.isascii text
      then Py.contains (Py.lower pattern) (Py.lower text)
      else re_search pattern text
  end.

(** ** [list_genres] *)

(** [None] is the [AttributeError] of [.str] on a column of floats. *)
Definition list_genres (df : list Movie) : option (list string) :=
  if has_str (Genre <$> df) then
    Some (merge_sort String.le
            (elements (list_to_set (C := gset string)
               (sublist ← Py.split_comma_space <$> dropna (Genre <$> df);
                Py.strip <$> sublist))))
  else None.

(** ** [recommend_movies] *)

(** What [recommend_movies] returns: the list of (title, polarity) pairs,
    or the text that says there is none. *)
Inductive reply :=
  | Recommendations (recs : list (string * float))
  | Message (text : string).

(** Truth value of a float: zero of either sign is false, NaN is true. *)
Definition float_truthy (x : float) : bool := negb (PrimFloat.eqb x 0).

(** [if genre: filtered_df = filtered_df[...str.contains(genre, ...)]] *)
Definition genre_filter `{Library} (genre : option string) (df : list Movie) : list Movie :=
  match genre with
  | Some g =>
      if Py.truthy g then List.filter (λ row, str_contains g (Genre row)) df
      else df
  | None => df
  end.

(** [if rating: filtered_df = filtered_df[filtered_df['IMDB_Rating'] >= rating]] *)
Definition rating_filter (rating : option float) (df : list Movie) : list Movie :=
  match rating with
  | Some r =>
      if float_truthy r
      then List.filter (λ row, PrimFloat.leb r (IMDB_Rating row)) df
      else df
  | None => df
  end.

(** The rows that reach the shuffle. *)
Definition filtered `{Library} (movies_df : list Movie)
    (genre : option string) (rating : option float) : list Movie :=
  rating_filter rating (genre_filter genre movies_df).

(** [TextBlob(mood).sentiment.polarity if mood else None] *)
Definition mood_polarity_of `{Library} (mood : option string) : option float :=
  match mood with
  | Some text => if Py.truthy text then Some (polarity text) else None
  | None => None
  end.

(** [not mood or (mood_polarity * polarity > 0) or polarity == 0];
    [mood_polarity] is [None] exactly when [mood] is false. *)
Definition mood_match (mood_polarity : option float) (p : float) : bool :=
  match mood_polarity with
  | None => true
  | Some mp => PrimFloat.ltb 0 (PrimFloat.mul mp p) || PrimFloat.eqb p 0
  end.

(** The [for] loop over the shuffled rows, [recommendations] threaded
    through.  [continue] skips the length test, [break] returns. *)
Fixpoint collect `{Library} (mood_polarity : option float) (top_n : Z)
    (rows : list Movie) (recommendations : list (string * float))
    : list (string * float) :=
  match rows with
  | [] => recommendations
  | row :: rows' =>
      match Overview row with
      | None => collect mood_polarity top_n rows' recommendations
      | Some overview =>
          let p := polarity overview in
          let recommendations' :=
            if mood_match mood_polarity p
            then recommendations ++ [(Series_Title row, p)]
            else recommendations in
          if bool_decide (Z.of_nat (length recommendations') = top_n)
          then recommendations'
          else collect mood_polarity top_n rows' recommendations'
      end
  end.

(** [recommend_movies] once the shuffle has put the rows in some order. *)
Definition recommend_from `{Library} (shuffled : list Movie)
    (mood : option string) (top_n : Z) : reply :=
  match collect (mood_polarity_of mood) top_n shuffled [] with
  | [] => Message "No suitable movie recommendations found."
  | recommendations => Recommendations recommendations
  end.

(** The exception that lines 55 to 58 raise, if any: [AttributeError]
    when the genre column has no [.str], then [re.error] when the genre
    does not compile.  A genre of literal characters always compiles. *)
Definition genre_step_raises `{Library} (genre : option string)
    (movies_df : list Movie) : option string :=
  match genre with
  | Some g =>
      if Py.truthy g then
        if negb (has_str (Genre <$> movies_df)) then Some "AttributeError"
        else if negb (regex_plain g || re_compiles g) then Some "re.error"
        else None
      else None
  | None => None
  end.

(** [recommend_movies(genre, mood, rating, top_n)] over [movies_df]: the
    replies the call can return.  It returns when the genre step does not
    raise, and [sample(frac=1)] may put the filtered rows in any order. *)
Definition recommend_movies `{Library} (movies_df : list Movie)
    (genre mood : option string) (rating : option float) (top_n : Z)
    (out : reply) : Prop :=
  genre_step_raises genre movies_df = None ∧
  ∃ shuffled,
    shuffled ≡ₚ filtered movies_df genre rating ∧
    out = recommend_from shuffled mood top_n.

(** ** [handle_ai] *)

(** What one pass through a [while True] prompt does with the line read:
    [break] with a value, or print a message and ask again.  [Raise] is
    an exception that would leave the loop.  [Beyond] is a line that this
    development does not follow the program on. *)
Inductive answer (A : Type) :=
  | Accept (value : A)
  | Retry (message : string)
  | Raise (exception : string)
  | Beyond.
Arguments Accept {A} value.
Arguments Retry {A} message.
Arguments Raise {A} exception.
Arguments Beyond {A}.

(** The genre prompt, lines 115 to 123.  The digits and the letter case
    of a line that is not ASCII are not followed, and [int] is the one
    without the limit on the digits. *)
Definition genre_answer (genres : list string) (line : string) : answer string :=
  let genre_input := Py.strip line in
  if negb (Py.isascii genre_input) then Beyond
  else if Py.isdigit genre_input
     && bool_decide (1 ≤ Py.int genre_input ≤ Z.of_nat (length genres))%Z
  then match genres !! Z.to_nat (Py.int genre_input - 1) with
       | Some genre => Accept genre
       | None => Raise "IndexError"
       end
  else if bool_decide (Py.title genre_input ∈ genres)
  then Accept (Py.title genre_input)
  else Retry "Invalid input. Try again.".

(** [7.6 <= rating <= 9.3] *)
Definition rating_in_range (rating : float) : bool :=
  PrimFloat.leb 7.6 rating && PrimFloat.leb rating 9.3.

(** The rating prompt, lines 137 to 149. *)
Definition rating_answer `{Library} (line : string) : answer (option float) :=
  let rating_input := Py.strip line in
  if bool_decide (Py.lower rating_input = "skip") then Accept None
  else match float_of rating_input with
       | Some rating =>
           if rating_in_range rating then Accept (Some rating)
           else Retry "Rating out of range. Try again."
       | None => Retry "Invalid input. Try again."
       end.

(** A [while True] prompt over the lines still to come on standard
    input: the value it leaves with and the lines not yet read.  [None]
    when the input ends first, the pass raises, or a line is not
    followed. *)
Fixpoint ask {A} (pass : string → answer A) (stdin : list string)
    : option (A * list string) :=
  match stdin with
  | [] => None
  | line :: stdin' =>
      match pass line with
      | Accept value => Some (value, stdin')
      | Retry _ => ask pass stdin'
      | Raise _ | Beyond => None
      end
  end.

(** The arguments of one call [recommend_movies(genre=, mood=, rating=,
    top_n=5)]. *)
Record call := {
  call_genre : string;
  call_mood : string;
  call_rating : option float;
  call_top_n : Z
}.

(** The last prompt: each [yes] is one more call, [no] ends. *)
Fixpoint more_calls (this : call) (stdin : list string) : list call :=
  match stdin with
  | [] => []
  | line :: stdin' =>
      let action := Py.lower (Py.strip line) in
      if bool_decide (action = "no") then []
      else if bool_decide (action = "yes") then this :: more_calls this stdin'
      else more_calls this stdin'
  end.

(** The calls of [recommend_movies] that [handle_ai] makes when it reads
    the given lines, in order; they all carry the same arguments, and a
    call is made when those before it returned.  There is none when the
    input ends within the first prompts, a prompt raises or a line is not
    followed. *)
Definition handle_ai `{Library} (genres : list string) (stdin : list string)
    : list call :=
  match ask (genre_answer genres) stdin with
  | None => []
  | Some (genre, stdin) =>
      match stdin with
      | [] => []
      | line :: stdin =>
          let mood := Py.strip line in
          match ask rating_answer stdin with
          | None => []
          | Some (rating, stdin) =>
              let this := {| call_genre := genre; call_mood := mood;
                             call_rating := rating; call_top_n := 5 |} in
              this :: more_calls this stdin
          end
      end
  end.

(** The reply to a call. *)
Definition reply_to `{Library} (movies_df : list Movie) (c : call) (out : reply) : Prop :=
  recommend_movies movies_df (Some (call_genre c)) (Some (call_mood c))
    (call_rating c) (call_top_n c) out.

(** ** Words of the specification *)

(** [piece] occurs verbatim in [text]. *)
Definition occurs_in (piece text : string) : Prop :=
  ∃ before after, text = before +:+ piece +:+ after.

(** [text] contains [query] as a substring, letter case aside. *)
Definition contains_ignoring_case (query text : string) : Prop :=
  ∃ before found after,
    text = before +:+ found +:+ after ∧ Py.lower found = Py.lower query.

(** The text of the given bytes. *)
Definition bytes (codes : list N) : string :=
  foldr (λ code text, String (ascii_of_N code) text) "" codes.

(** White space: the characters U+0009 to U+000D, U+001C to U+001F,
    U+0020, U+0085, U+00A0, U+1680, U+2000 to U+200A, U+2028, U+2029,
    U+202F, U+205F and U+3000, in UTF-8. *)
Definition white_space : list string :=
  bytes <$>
    [ [9]; [10]; [11]; [12]; [13]; [28]; [29]; [30]; [31]; [32];
      [194; 133]; [194; 160]; [225; 154; 128];
      [226; 128; 128]; [226; 128; 129]; [226; 128; 130]; [226; 128; 131];
      [226; 128; 132]; [226; 128; 133]; [226; 128; 134]; [226; 128; 135];
      [226; 128; 136]; [226; 128; 137]; [226; 128; 138];
      [226; 128; 168]; [226; 128; 169]; [226; 128; 175];
      [226; 129; 159]; [227; 128; 128] ]%N.

(** The byte is the first of a character of white space. *)
Definition first_byte (c : ascii) : bool :=
  Py.isspace c || bool_decide (Py.code c ∈ [194; 225; 226; 227]%N).

(** [text] is made of white space only. *)
Inductive all_white : string → Prop :=
  | all_white_empty : all_white ""
  | all_white_more space text :
      space ∈ white_space → all_white text → all_white (space +:+ text).

(** [text] neither starts nor ends with white space. *)
Definition trimmed (text : string) : Prop :=
  ∀ space rest, space ∈ white_space →
    text ≠ space +:+ rest ∧ text ≠ rest +:+ space.

(** [entry] is [piece] without the white space around it. *)
Definition trim_of (piece entry : string) : Prop :=
  ∃ before after,
    piece = before +:+ entry +:+ after ∧
    all_white before ∧ all_white after ∧ trimmed entry.

(** [pieces] are the parts of [field] between its delimiters [", "]. *)
Definition split_of (field : string) (pieces : list string) : Prop :=
  pieces ≠ [] ∧ String.concat ", " pieces = field ∧
  ∀ piece, piece ∈ pieces → ¬ occurs_in ", " piece.

(** A polarity with some weight: its magnitude is at least 2^-511, so
    that the product of two of them does not vanish in rounding. *)
Definition tiny : float := 0x1p-511%float.
Definition weighty (x : float) : bool := PrimFloat.leb tiny (PrimFloat.abs x).

(** The pairs [recommend_movies] returned, none for the message. *)
Definition recommendations_of (out : reply) : list (string * float) :=
  match out with
  | Recommendations recs => recs
  | Message _ => []
  end.

(** The pair the loop appends for a row. *)
Definition entry `{Library} (row : Movie) (overview : string) : string * float :=
  (Series_Title row, polarity overview).

(** The mood test of step 6: with a mood text that is not empty,
    [mood_polarity * polarity > 0] or [polarity == 0], the mood's polarity
    being that of the text; with no mood text, or the empty one, there is
    no test. *)
Definition passes_mood `{Library} (mood : option string) (overview : string) : Prop :=
  ∀ text, mood = Some text → text ≠ "" →
    PrimFloat.ltb 0 (PrimFloat.mul (polarity text) (polarity overview)) = true ∨
    PrimFloat.eqb (polarity overview) 0 = true.

(** The pairs of the rows that have an overview which passes the mood
    test, in the order of the rows. *)
Inductive passing_of `{Library} (mood : option string)
    : list Movie → list (string * float) → Prop :=
  | passing_nil : passing_of mood [] []
  | passing_pass row overview rows pairs :
      Overview row = Some overview →
      passes_mood mood overview →
      passing_of mood rows pairs →
      passing_of mood (row :: rows) (entry row overview :: pairs)
  | passing_no_overview row rows pairs :
      Overview row = None →
      passing_of mood rows pairs →
      passing_of mood (row :: rows) pairs
  | passing_fail row overview rows pairs :
      Overview row = Some overview →
      ¬ passes_mood mood overview →
      passing_of mood rows pairs →
      passing_of mood (row :: rows) pairs.

(** The mask of the genre step and of the rating step on one row. *)
Definition genre_keeps `{Library} (genre : option string) (row : Movie) : bool :=
  match genre with
  | Some g => if Py.truthy g then str_contains g (Genre row) else true
  | None => true
  end.

Definition rating_keeps (rating : option float) (row : Movie) : bool :=
  match rating with
  | Some r => if float_truthy r then PrimFloat.leb r (IMDB_Rating row) else true
  | None => true
  end.

(** The pair a row contributes when the loop visits it, if any. *)
Definition hit `{Library} (mood_polarity : option float) (row : Movie)
    : option (string * float) :=
  match Overview row with
  | Some overview =>
      if mood_match mood_polarity (polarity overview)
      then Some (entry row overview) else None
  | None => None
  end.

(** The pairs of all the rows the loop would append, in the order of the
    rows, were it never to [break]. *)
Definition hits `{Library} (mood_polarity : option float) (rows : list Movie)
    : list (string * float) :=
  omap (hit mood_polarity) rows.

(** A row matches the constraints of a call: it passes the genre and the
    rating step, has an overview, and the overview passes the mood test. *)
Definition suits `{Library} (genre mood : option string) (rating : option float)
    (row : Movie) : Prop :=
  genre_keeps genre row = true ∧ rating_keeps rating row = true ∧
  is_Some (hit (mood_polarity_of mood) row).

(** ** A small library for the examples *)

(** A scorer that knows two words: a text that holds happy scores 0.8, one
    that holds sad scores -0.5, any other text is neutral. *)
Definition two_words (text : string) : float :=
  if Py.contains "happy" (Py.lower text) then 0.8%float
  else if Py.contains "sad" (Py.lower text) then (-0.5)%float
  else 0%float.

(** An engine that knows the pattern [.], which any character but a line
    feed matches, and compiles no other pattern of its kind. *)
Fixpoint has_char_but_newline (text : string) : bool :=
  match text with
  | EmptyString => false
  | String c rest => negb (bool_decide (c = "010"%char)) || has_char_but_newline rest
  end.

Definition dot_only (pattern text : string) : bool :=
  bool_decide (pattern = ".") && has_char_but_newline text.

(** A reader of plain numerals, digits with at most one point: the integer
    the digits spell, divided by the power of ten of the decimals. *)
Fixpoint numeral (seen_point : bool) (digits decimals : Z) (text : string)
    : option (Z * Z) :=
  match text with
  | EmptyString => Some (digits, decimals)
  | String c rest =>
      if Py.isdigit_char c then
        numeral seen_point (10 * digits + Z.of_N (Py.code c - 48))
                (if seen_point then decimals + 1 else decimals) rest
      else if bool_decide (c = "."%char) && negb seen_point then
        numeral true digits decimals rest
      else None
  end.

Definition float_of_Z (z : Z) : float := PrimFloat.of_uint63 (Uint63.of_Z z).

Definition plain_numeral (text : string) : option float :=
  match text with
  | EmptyString | "." => None
  | _ =>
      match numeral false 0 0 text with
      | Some (digits, decimals) =>
          Some (PrimFloat.div (float_of_Z digits) (float_of_Z (10 ^ decimals)))
      | None => None
      end
  end.

Definition examples : Library :=
  {| polarity := two_words;
     re_compiles := λ pattern, bool_decide (pattern = ".");
     re_search := dot_only;
     float_of := plain_numeral |}.

(** The three rows of the scenario. *)
Definition movie_A : Movie := read_row "A" "Drama" "A sad story" 8.0.
Definition movie_B : Movie := read_row "B" "Comedy" "A happy tale" 7.0.
Definition movie_C : Movie := read_row "C" "Drama" "" 9.0.

Definition scenario : list Movie := [movie_A; movie_B; movie_C].

(** Two more rows: an overview of no polarity, and a rating below zero. *)
Definition movie_N : Movie := read_row "N" "Drama" "A story" 8.0.

(** Three more: a second overview of no polarity, a second happy one, and
    a row without genre. *)
Definition movie_M : Movie := read_row "M" "Drama" "A tale" 8.0.
Definition movie_H : Movie := read_row "H" "Comedy" "A happy end" 7.5.
Definition movie_D : Movie := read_row "D" "" "A story" 8.0.

(** The text of the reply when nothing was collected. *)
Definition nothing_found : string := "No suitable movie recommendations found.".

(** ** [load_data] *)

(** A file that exists, as [pd.read_csv] takes it: the exception it
    raises on the file, if any ([EmptyDataError], [ParserError],
    [UnicodeDecodeError], ...), or else the names of the columns and the
    rows.  [csv_text] says that no cell of the genre and overview columns
    was read as a number or a truth value.  The rows of a file that lacks
    a required column are never looked at. *)
Record Csv := {
  csv_error : option string;
  csv_columns : list string;
  csv_text : bool;
  csv_rows : list Movie
}.

(** What [load_data] ends with: the frame, each row with its
    [combined_features], the line printed before [exit()], or an
    exception that no handler catches. *)
Inductive loaded :=
  | Frame (rows : list (Movie * string))
  | Exit (printed : string)
  | Uncaught (exception : string).

Definition required_cols : list string :=
  ["Series_Title"; "Genre"; "Overview"; "IMDB_Rating"].

(** The [for col in required_cols] loop: the first column that is not in
    [df.columns], where [KeyError] is raised. *)
Fixpoint first_missing (columns required : list string) : option string :=
  match required with
  | [] => None
  | col :: required' =>
      if bool_decide (col ∈ columns) then first_missing columns required'
      else Some col
  end.

(** [Series.fillna('')] on one cell. *)
Definition fillna (cell : option string) : string := default "" cell.

(** [df['Genre'].fillna('') + ' ' + df['Overview'].fillna('')] *)
Definition combined_features (row : Movie) : string :=
  fillna (Genre row) +:+ " " +:+ fillna (Overview row).

(** [load_data(file_path)] over the files that exist.  [str] of a
    [KeyError] puts its message in quotes.  On line 21 a number plus a
    blank is a [TypeError]. *)
Definition load_data (files : gmap string Csv) (file_path : string) : loaded :=
  match files !! file_path with
  | None => Exit ("Error: The file '" +:+ file_path +:+ "' was not found.")
  | Some df =>
      match csv_error df with
      | Some exception => Uncaught exception
      | None =>
          match first_missing (csv_columns df) required_cols with
          | Some col => Exit ("'Missing column in CSV: " +:+ col +:+ "'")
          | None =>
              if csv_text df
              then Frame ((λ row, (row, combined_features row)) <$> csv_rows df)
              else Uncaught "TypeError"
          end
      end
  end.

(** [movies_df]: the rows of a loaded frame. *)
Definition movies_of (frame : list (Movie * string)) : list Movie := fst <$> frame.

(** ** What is printed *)

(** Line 90: the word shown beside a polarity. *)
Definition sentiment (polarity : float) : string :=
  if PrimFloat.ltb 0 polarity then "Positive 😊"
  else if PrimFloat.ltb polarity 0 then "Negative 😞"
  else "Neutral 😐".

(** [display_recommendations(recs, name)]: the lines printed, colour codes
    left out.  [format_2f] is the format [:.2f] of a float. *)
Definition display_recommendations (format_2f : float → string)
    (recs : list (string * float)) (name : string) : list string :=
  (String "010" "🍿 AI-Analyzed Movie Recommendations for " +:+ name +:+ ":")
  :: imap (λ i '(title, polarity),
             pretty (S i) +:+ ". 🎥 " +:+ title +:+ " (Polarity: "
             +:+ format_2f polarity +:+ ", " +:+ sentiment polarity +:+ ")")
          recs.

(** Lines 156 to 159: what [handle_ai] prints for a reply. *)
Definition show (format_2f : float → string) (out : reply) (name : string)
    : list string :=
  match out with
  | Message text => [text +:+ String "010" ""]
  | Recommendations recs => display_recommendations format_2f recs name
  end.

(** Lines 131 and 132: the word shown for the mood. *)
Definition mood_desc `{Library} (mood : string) : string :=
  let mood_polarity := if Py.truthy mood then polarity mood else 0%float in
  if PrimFloat.ltb 0 mood_polarity then "positive 😊"
  else if PrimFloat.ltb mood_polarity 0 then "negative 😞"
  else "neutral 😐".

(** Lines 109 and 110: the numbered genres of the menu. *)
Definition genre_menu (genres : list string) : list string :=
  imap (λ i genre, pretty (S i) +:+ ". " +:+ genre) genres.

(** [main]: the name is read, then [handle_ai] runs. *)
Definition main `{Library} (genres : list string) (stdin : list string) : list call :=
  match stdin with
  | [] => []
  | _ :: stdin' => handle_ai genres stdin'
  end.

(** ** More words for the properties *)

(** The line, trimmed and in lower case, reads [word]. *)
Definition reads (word line : string) : Prop := Py.lower (Py.strip line) = word.

Global Instance reads_dec word line : Decision (reads word line).
Proof. unfold reads. apply _. Defined.


(** * Properties *)

(** Case analysis on the 256 characters. *)
Ltac each_char c := destruct c as [[] [] [] [] [] [] [] []]; reflexivity.

(** ** The definitions on some inputs *)

Example title_sci_fi : Py.title "sci-FI" = "Sci-Fi".
Proof. reflexivity. Qed.

Example strip_blanks : Py.strip "  Film-Noir  " = "Film-Noir".
Proof. reflexivity. Qed.

Example split_three :
  Py.split_comma_space "Action, Crime, Drama" = ["Action"; "Crime"; "Drama"].
Proof. reflexivity. Qed.

Example split_odd : Py.split_comma_space ",, a,  b, " = [","; "a"; " b"; ""].
Proof. reflexivity. Qed.

Example int_042 : Py.int "042" = 42%Z.
Proof. reflexivity. Qed.

Example plain_numeral_9_5 : plain_numeral "9.5" = Some 9.5%float.
Proof. reflexivity. Qed.

Example plain_numeral_7_6 : plain_numeral "7.6" = Some 7.6%float.
Proof. reflexivity. Qed.

Example contains_action_drama :
  str_contains (H := examples) "drama" (Some "Action, Drama") = true.
Proof. reflexivity. Qed.

Example rating_bounds :
  rating_in_range 7.6 = true ∧ rating_in_range 9.3 = true ∧
  rating_in_range 9.5 = false ∧ rating_in_range nan = false.
Proof. repeat split. Qed.

Example catalog_scenario : list_genres scenario = Some ["Comedy"; "Drama"].
Proof. vm_compute. reflexivity. Qed.

Example strip_wide :
  Py.strip (bytes [227; 128; 128; 32; 194; 160]%N +:+ "Drama" +:+ bytes [226; 128; 169; 9]%N)
  = "Drama".
Proof. reflexivity. Qed.

Example lower_kelvin : Py.lower ("S" +:+ bytes [226; 132; 170]%N +:+ "IP") = "skip".
Proof. reflexivity. Qed.

Example session :
  handle_ai (H := examples) ["Comedy"; "Drama"]
    ["9"; "drama"; " sad "; "9.5"; "8"; "maybe"; "yes"; "no"; "yes"]
  = let c := {| call_genre := "Drama"; call_mood := "sad";
                call_rating := Some 8%float; call_top_n := 5 |} in
    [c; c].
Proof. vm_compute. reflexivity. Qed.
(** ** Strings *)

Section strings.
Implicit Types s t piece text : string.

Lemma app_empty_l s : "" +:+ s = s.
Proof. reflexivity. Qed.

Lemma app_String c s t : String c s +:+ t = String c (s +:+ t).
Proof. reflexivity. Qed.

Lemma app_empty_r s : s +:+ "" = s.
Proof. induction s as [|c s IH]; [done|]. by rewrite app_String, IH. Qed.

Lemma app_app s t u : (s +:+ t) +:+ u = s +:+ t +:+ u.
Proof. induction s as [|c s IH]; [done|]. by rewrite !app_String, IH. Qed.

Lemma string_length_app s t : String.length (s +:+ t) = String.length s + String.length t.
Proof. induction s as [|c s IH]; [done|]. rewrite app_String. simpl. by rewrite IH. Qed.

(** Two ways to cut a text: one of the first parts starts the other. *)
Lemma app_eq_cases s1 s2 t1 t2 :
  s1 +:+ s2 = t1 +:+ t2 →
  (∃ x, t1 = s1 +:+ x ∧ s2 = x +:+ t2) ∨ (∃ x, s1 = t1 +:+ x ∧ t2 = x +:+ s2).
Proof.
  revert t1. induction s1 as [|c s1 IH]; intros t1 E.
  { left. by exists t1. }
  destruct t1 as [|d t1].
  { right. by exists (String c s1). }
  rewrite !app_String in E. injection E as -> E.
  destruct (IH t1 E) as [(x & -> & ->)|(x & -> & ->)]; [left|right]; by exists x.
Qed.

Lemma app_eq_empty s t : s +:+ t = "" → s = "" ∧ t = "".
Proof. destruct s; [by rewrite app_empty_l|by rewrite app_String]. Qed.

Lemma occurs_in_refl s : occurs_in s s.
Proof. exists "", "". by rewrite app_empty_l, app_empty_r. Qed.

Lemma occurs_in_empty s : occurs_in "" s.
Proof. by exists "", s. Qed.

Lemma occurs_in_trans s t u : occurs_in s t → occurs_in t u → occurs_in s u.
Proof.
  intros (b1 & a1 & ->) (b2 & a2 & ->).
  exists (b2 +:+ b1), (a1 +:+ a2). by rewrite !app_app.
Qed.

Lemma occurs_in_String c s t : occurs_in s t → occurs_in s (String c t).
Proof. intros (b & a & ->). by exists (String c b), a. Qed.

End strings.

(** ** White space *)

Lemma code_inv c n : Py.code c = n → c = ascii_of_N n.
Proof. intros <-. symmetry. apply ascii_N_embedding. Qed.

(** The ranges of [str.strip] are the characters of the table. *)
Lemma white_space_is_space_char space :
  space ∈ white_space → Py.is_space_char space = true.
Proof.
  revert space. apply Forall_forall. apply (bool_decide_unpack _). by vm_compute.
Qed.

Ltac in_white_space := apply (bool_decide_unpack _); vm_compute; exact I.

Lemma is_space_char_white_space s : Py.is_space_char s = true → s ∈ white_space.
Proof.
  destruct s as [|c1 [|c2 [|c3 [|c4 s]]]]; try done; simpl.
  - destruct c1 as [[] [] [] [] [] [] [] []]; try discriminate; intros _; in_white_space.
  - unfold Py.two_byte_space. rewrite andb_true_iff, orb_true_iff, !N.eqb_eq.
    intros [->%code_inv [->%code_inv| ->%code_inv]]; in_white_space.
  - unfold Py.three_byte_space. rewrite !orb_true_iff, !andb_true_iff, !N.eqb_eq.
    intros [[[[[->%code_inv ->%code_inv] H3]|[[->%code_inv ->%code_inv] H3]]
            |[[->%code_inv ->%code_inv] H3]]|[[->%code_inv ->%code_inv] H3]];
      try (apply code_inv in H3 as ->; in_white_space).
    destruct c3 as [[] [] [] [] [] [] [] []]; try discriminate; in_white_space.
Qed.

Lemma white_space_not_empty space : space ∈ white_space → space ≠ "".
Proof. by intros H%white_space_is_space_char ->. Qed.

Lemma two_byte_space_inv c1 c2 :
  Py.two_byte_space c1 c2 = true →
  Py.isspace c1 = false ∧ first_byte c1 = true ∧
  Py.isspace c2 = false ∧ first_byte c2 = false.
Proof.
  unfold Py.two_byte_space. rewrite andb_true_iff, orb_true_iff, !N.eqb_eq.
  by intros [->%code_inv [->%code_inv| ->%code_inv]].
Qed.

Lemma three_byte_space_inv c1 c2 c3 :
  Py.three_byte_space c1 c2 c3 = true →
  (Py.isspace c1 = false ∧ first_byte c1 = true ∧ Py.two_byte_space c1 c2 = false) ∧
  (Py.isspace c2 = false ∧ first_byte c2 = false ∧ Py.two_byte_space c2 c3 = false) ∧
  (Py.isspace c3 = false ∧ first_byte c3 = false).
Proof.
  unfold Py.three_byte_space. rewrite !orb_true_iff, !andb_true_iff, !N.eqb_eq.
  intros [[[[[->%code_inv ->%code_inv] H3]|[[->%code_inv ->%code_inv] H3]]
          |[[->%code_inv ->%code_inv] H3]]|[[->%code_inv ->%code_inv] H3]];
    try (by apply code_inv in H3 as ->).
  by destruct c3 as [[] [] [] [] [] [] [] []].
Qed.

Section trimming.
Implicit Types s t piece text space : string.

(** A text that starts with white space starts with what [lstrip] looks
    for. *)
Lemma lstrip_cases s :
  (∃ space rest,
     space ∈ white_space ∧ s = space +:+ rest ∧ Py.lstrip s = Py.lstrip rest) ∨
  (Py.lstrip s = s ∧ ∀ space rest, space ∈ white_space → s ≠ space +:+ rest).
Proof.
  destruct s as [|c1 s1].
  { right. split; [done|]. intros space rest Hs%white_space_not_empty E.
    by destruct space. }
  simpl. destruct (Py.isspace c1) eqn:E1.
  { left. exists (String c1 ""), s1. split; [by apply is_space_char_white_space|done]. }
  destruct s1 as [|c2 s2].
  { right. split; [done|]. intros space rest Hs%white_space_is_space_char E.
    destruct space as [|d1 [|d2 space]]; rewrite ?app_String, ?app_empty_l in E; simplify_eq/=; congruence. }
  destruct (Py.two_byte_space c1 c2) eqn:E2.
  { left. exists (String c1 (String c2 "")), s2.
    split; [by apply is_space_char_white_space|done]. }
  destruct s2 as [|c3 s3].
  { right. split; [done|]. intros space rest Hs%white_space_is_space_char E.
    destruct space as [|d1 [|d2 [|d3 space]]]; rewrite ?app_String, ?app_empty_l in E; simplify_eq/=; congruence. }
  destruct (Py.three_byte_space c1 c2 c3) eqn:E3.
  { left. exists (String c1 (String c2 (String c3 ""))), s3.
    split; [by apply is_space_char_white_space|done]. }
  right. split; [done|]. intros space rest Hs%white_space_is_space_char E.
  destruct space as [|d1 [|d2 [|d3 [|d4 space]]]]; rewrite ?app_String, ?app_empty_l in E; simplify_eq/=; congruence.
Qed.

Lemma lstrip_spec s :
  ∃ before,
    s = before +:+ Py.lstrip s ∧ all_white before ∧
    ∀ space rest, space ∈ white_space → Py.lstrip s ≠ space +:+ rest.
Proof.
  remember (String.length s) as n eqn:Hn. revert s Hn.
  induction (lt_wf n) as [n _ IH]; intros s ->.
  destruct (lstrip_cases s) as [(space & rest & Hspace & -> & E)|[E Hno]].
  - destruct (IH (String.length rest)) with (s := rest) as (before & Hb & Hw & Hno);
      [|done|].
    { rewrite string_length_app. apply white_space_not_empty in Hspace.
      destruct space; [done|simpl; lia]. }
    exists (space +:+ before). rewrite E. split; [|split; [by constructor|done]].
    by rewrite app_app, <-Hb.
  - exists "". rewrite E. split; [done|]. split; [constructor|done].
Qed.

Lemma rstrip_String c s :
  Py.rstrip (String c s) =
  if Py.is_space_char (String c (Py.rstrip s)) then "" else String c (Py.rstrip s).
Proof. reflexivity. Qed.

Lemma rstrip_spec s :
  ∃ after,
    s = Py.rstrip s +:+ after ∧ all_white after ∧
    ∀ space rest, space ∈ white_space → Py.rstrip s ≠ rest +:+ space.
Proof.
  induction s as [|c s (after & Ha & Hw & Hno)].
  { exists "". split; [done|]. split; [constructor|].
    intros space rest Hs%white_space_not_empty E. symmetry in E.
    by apply app_eq_empty in E as [_ ?]. }
  rewrite rstrip_String. destruct (Py.is_space_char (String c (Py.rstrip s))) eqn:E.
  - exists (String c (Py.rstrip s) +:+ after).
    split; [by rewrite app_empty_l, app_String, <-Ha|].
    split; [constructor; [by apply is_space_char_white_space|done]|].
    intros space rest Hs%white_space_not_empty E'. symmetry in E'.
    by apply app_eq_empty in E' as [_ ?].
  - exists after. split; [by rewrite app_String, <-Ha|]. split; [done|].
    intros space [|d rest] Hs E'.
    + rewrite app_empty_l in E'. rewrite E' in E.
      by rewrite white_space_is_space_char in E.
    + rewrite app_String in E'. injection E' as _ E'. by eapply Hno.
Qed.

(** [str.strip] takes the white space off both ends, and nothing else. *)
Lemma strip_trim_of s : trim_of s (Py.strip s).
Proof.
  unfold Py.strip.
  destruct (lstrip_spec s) as (before & Hb & Hwb & Hstart).
  destruct (rstrip_spec (Py.lstrip s)) as (after & Ha & Hwa & Hend).
  exists before, after. split; [by rewrite <-Ha|]. split; [done|]. split; [done|].
  intros space rest Hs. split; [|by apply Hend].
  intros E. apply (Hstart space (rest +:+ after) Hs).
  by rewrite Ha, E, app_app.
Qed.

Lemma strip_occurs_in s : occurs_in (Py.strip s) s.
Proof. destruct (strip_trim_of s) as (before & after & E & _). by exists before, after. Qed.

Lemma lstrip_white_space space t :
  space ∈ white_space → Py.lstrip (space +:+ t) = Py.lstrip t.
Proof.
  intros Hs%white_space_is_space_char.
  destruct space as [|c1 [|c2 [|c3 [|c4 space]]]]; try done; simpl in *.
  - by rewrite Hs.
  - destruct (two_byte_space_inv _ _ Hs) as (-> & _). by rewrite Hs.
  - destruct (three_byte_space_inv _ _ _ Hs) as ((-> & _ & ->) & _). by rewrite Hs.
Qed.

Lemma lstrip_all_white before t : all_white before → Py.lstrip (before +:+ t) = Py.lstrip t.
Proof.
  induction 1 as [|space text Hs _ IH]; [done|].
  by rewrite app_app, lstrip_white_space.
Qed.

Lemma lstrip_id t :
  (∀ space rest, space ∈ white_space → t ≠ space +:+ rest) → Py.lstrip t = t.
Proof.
  intros Hno. destruct (lstrip_cases t) as [(space & rest & Hs & E & _)|[E _]]; [|done].
  by destruct (Hno space rest).
Qed.

Lemma rstrip_id t :
  (∀ space rest, space ∈ white_space → t ≠ rest +:+ space) → Py.rstrip t = t.
Proof.
  induction t as [|c t IH]; [done|]. intros Hno. rewrite rstrip_String, IH.
  - destruct (Py.is_space_char (String c t)) eqn:E; [|done].
    apply is_space_char_white_space in E. by destruct (Hno (String c t) "" E).
  - intros space rest Hs ->. by apply (Hno space (String c rest) Hs).
Qed.

Lemma rstrip_white_space space t :
  space ∈ white_space → Py.rstrip t = "" → Py.rstrip (space +:+ t) = "".
Proof.
  intros Hs%white_space_is_space_char Ht.
  destruct space as [|c1 [|c2 [|c3 [|c4 space]]]]; try done;
    rewrite ?app_String, app_empty_l, !rstrip_String, Ht.
  - by rewrite Hs.
  - simpl in Hs. destruct (two_byte_space_inv _ _ Hs) as (_ & _ & H2 & _).
    simpl. by rewrite H2, Hs.
  - simpl in Hs.
    destruct (three_byte_space_inv _ _ _ Hs) as (_ & (_ & _ & H2) & (H3 & _)).
    simpl. by rewrite H3, H2, Hs.
Qed.

Lemma rstrip_all_white t : all_white t → Py.rstrip t = "".
Proof. induction 1; [done|]. by apply rstrip_white_space. Qed.

Lemma rstrip_app_white s after : all_white after → Py.rstrip (s +:+ after) = Py.rstrip s.
Proof.
  intros Hw. induction s as [|c s IH]; [by apply rstrip_all_white|].
  by rewrite app_String, !rstrip_String, IH.
Qed.

(** White space after a text that does not start with white space does
    not make it start with white space. *)
Lemma no_white_start entry after space rest :
  entry ≠ "" →
  (∀ space rest, space ∈ white_space → entry ≠ space +:+ rest) →
  all_white after →
  space ∈ white_space →
  entry +:+ after ≠ space +:+ rest.
Proof.
  intros Hne Hno Hw Hs E.
  apply app_eq_cases in E as [(x & -> & ->)|(x & -> & _)]; [|by eapply Hno].
  destruct entry as [|c1 entry]; [done|].
  destruct x as [|d y].
  { rewrite app_empty_r in Hs. destruct (Hno _ "" Hs). by rewrite app_empty_r. }
  assert (first_byte d = true) as Hd.
  { rewrite app_String in Hw. inversion Hw as [|space' text Hs' _ E].
    apply white_space_is_space_char in Hs'.
    destruct space' as [|e1 [|e2 [|e3 [|e4 space']]]]; try done;
      rewrite ?app_String in E; injection E as -> _; simpl in Hs'.
    - unfold first_byte. by rewrite Hs'.
    - by destruct (two_byte_space_inv _ _ Hs') as (_ & -> & _).
    - by destruct (three_byte_space_inv _ _ _ Hs') as ((_ & -> & _) & _). }
  apply white_space_is_space_char in Hs. rewrite !app_String in Hs.
  destruct entry as [|c2 [|c3 entry]]; rewrite ?app_String, ?app_empty_l in Hs.
  - destruct y as [|d2 [|d3 y]]; try done.
    + destruct (two_byte_space_inv _ _ Hs) as (_ & _ & _ & ?). congruence.
    + destruct (three_byte_space_inv _ _ _ Hs) as (_ & (_ & ? & _) & _). congruence.
  - destruct y as [|d3 y]; try done.
    destruct (three_byte_space_inv _ _ _ Hs) as (_ & _ & (_ & ?)). congruence.
  - by destruct entry; rewrite ?app_String, ?app_empty_l in Hs.
Qed.

(** The entry that the trimming leaves is the one [str.strip] returns. *)
Lemma trim_of_strip piece entry : trim_of piece entry → entry = Py.strip piece.
Proof.
  intros (before & after & -> & Hwb & Hwa & Htrim). unfold Py.strip.
  rewrite lstrip_all_white by done.
  destruct (decide (entry = "")) as [->|Hne].
  { rewrite app_empty_l. assert (Py.lstrip after = "") as ->; [|done].
    rewrite <-(app_empty_r after). rewrite lstrip_all_white by done. done. }
  rewrite lstrip_id.
  - rewrite rstrip_app_white by done. symmetry. apply rstrip_id.
    intros space rest Hs. by destruct (Htrim space rest Hs).
  - intros space rest Hs. apply no_white_start; try done.
    intros space' rest' Hs'. by destruct (Htrim space' rest' Hs').
Qed.

Lemma strip_strip s : Py.strip (Py.strip s) = Py.strip s.
Proof.
  symmetry. apply trim_of_strip. exists "", "".
  rewrite app_empty_l, app_empty_r. split; [done|]. split; [constructor|].
  split; [constructor|]. by destruct (strip_trim_of s) as (_ & _ & _ & _ & _ & ?).
Qed.

End trimming.

Section splitting.
Implicit Types s t piece text : string.
Implicit Types pieces : list string.

Lemma split_String2 c d s :
  Py.split_comma_space (String c (String d s)) =
  if bool_decide (c = ","%char) && bool_decide (d = " "%char)
  then "" :: Py.split_comma_space s
  else match Py.split_comma_space (String d s) with
       | [] => [String c ""]
       | piece :: pieces => String c piece :: pieces
       end.
Proof. reflexivity. Qed.

Lemma concat_cons sep piece pieces :
  pieces ≠ [] →
  String.concat sep (piece :: pieces) = piece +:+ sep +:+ String.concat sep pieces.
Proof. by destruct pieces. Qed.

Lemma concat_String sep c piece pieces :
  String.concat sep (String c piece :: pieces)
  = String c (String.concat sep (piece :: pieces)).
Proof. by destruct pieces. Qed.

Lemma concat_occurs_in sep piece pieces :
  piece ∈ pieces → occurs_in piece (String.concat sep pieces).
Proof.
  induction pieces as [|p pieces IH]; [by intros ?%elem_of_nil|].
  destruct (decide (pieces = [])) as [->|Hne].
  { intros ->%list_elem_of_singleton. apply occurs_in_refl. }
  rewrite concat_cons by done. intros [->|Hin]%elem_of_cons.
  - by exists "", (sep +:+ String.concat sep pieces).
  - destruct (IH Hin) as (b & a & ->).
    exists (p +:+ sep +:+ b), a. by rewrite !app_app.
Qed.

Lemma no_delimiter_empty : ¬ occurs_in ", " "".
Proof.
  intros (b & a & E). symmetry in E.
  apply app_eq_empty in E as [_ E]. by apply app_eq_empty in E as [? _].
Qed.

Lemma no_delimiter_tail c piece :
  ¬ occurs_in ", " (String c piece) → ¬ occurs_in ", " piece.
Proof. intros Hno Hin. by apply Hno, occurs_in_String. Qed.

Lemma no_delimiter_head c d piece :
  ¬ occurs_in ", " (String c (String d piece)) →
  bool_decide (c = ","%char) && bool_decide (d = " "%char) = false.
Proof.
  intros Hno. apply andb_false_iff.
  destruct (decide (c = ","%char)) as [->|]; [|left; by apply bool_decide_eq_false].
  destruct (decide (d = " "%char)) as [->|]; [|right; by apply bool_decide_eq_false].
  destruct Hno. by exists "", piece.
Qed.

(** The pieces of [str.split(', ')] are what lies between the delimiters
    of the text. *)
Lemma split_spec s : split_of s (Py.split_comma_space s).
Proof.
  enough (∃ piece pieces,
            Py.split_comma_space s = piece :: pieces ∧
            String.concat ", " (piece :: pieces) = s ∧
            ∀ p, p ∈ piece :: pieces → ¬ occurs_in ", " p)
    as (piece & pieces & -> & ? & ?) by done.
  remember (String.length s) as n eqn:Hn. revert s Hn.
  induction (lt_wf n) as [n _ IH]; intros s ->.
  destruct s as [|c [|d s]].
  - exists "", []. split; [done|]. split; [done|].
    intros p ->%list_elem_of_singleton. apply no_delimiter_empty.
  - exists (String c ""), []. split; [done|]. split; [done|].
    intros p ->%list_elem_of_singleton (b & a & E).
    destruct b as [|? [|? ?]]; rewrite ?app_String, ?app_empty_l in E; simplify_eq.
  - rewrite split_String2.
    destruct (bool_decide (c = ","%char) && bool_decide (d = " "%char)) eqn:Esep.
    + apply andb_true_iff in Esep as [->%bool_decide_eq_true ->%bool_decide_eq_true].
      destruct (IH (String.length s)) with (s := s) as (p & ps & -> & Hc & Hno);
        [simpl; lia|done|].
      exists "", (p :: ps). split; [done|]. split.
      * rewrite concat_cons by done. by rewrite Hc.
      * intros q [->|Hq]%elem_of_cons; [apply no_delimiter_empty|by apply Hno].
    + destruct (IH (String.length (String d s))) with (s := String d s)
        as (p & ps & -> & Hc & Hno); [simpl; lia|done|].
      exists (String c p), ps. split; [done|]. split.
      * by rewrite concat_String, Hc.
      * intros q [->|Hq]%elem_of_cons; [|apply Hno; by right].
        intros ([|b0 b] & a & E); rewrite ?app_String, ?app_empty_l in E.
        -- injection E as -> ->. rewrite concat_String in Hc. injection Hc as <- _.
           done.
        -- injection E as _ ->. apply (Hno (b +:+ ", " +:+ a)); [by left|].
           by exists b, a.
Qed.

Lemma split_single piece :
  ¬ occurs_in ", " piece → Py.split_comma_space piece = [piece].
Proof.
  induction piece as [|c piece IH]; [done|]. intros Hno.
  destruct piece as [|d piece]; [done|].
  rewrite split_String2, (no_delimiter_head _ _ _ Hno), IH; [done|].
  by eapply no_delimiter_tail.
Qed.

Lemma split_delimiter piece t :
  ¬ occurs_in ", " piece →
  Py.split_comma_space (piece +:+ ", " +:+ t) = piece :: Py.split_comma_space t.
Proof.
  induction piece as [|c piece IH]; [done|]. intros Hno.
  rewrite app_String.
  assert (∃ d rest, piece +:+ ", " +:+ t = String d rest ∧
            bool_decide (c = ","%char) && bool_decide (d = " "%char) = false)
    as (d & rest & E & Hsep).
  { destruct piece as [|d piece].
    - exists ","%char, (String " " t). split; [done|]. apply andb_false_r.
    - exists d, (piece +:+ ", " +:+ t). split; [done|]. by eapply no_delimiter_head. }
  rewrite E, split_String2, Hsep, <-E, IH; [done|].
  by eapply no_delimiter_tail.
Qed.

(** ... and nothing else is. *)
Lemma split_unique s pieces : split_of s pieces → pieces = Py.split_comma_space s.
Proof.
  intros (Hne & <- & Hno). induction pieces as [|piece pieces IH]; [done|].
  destruct (decide (pieces = [])) as [->|Hne'].
  { simpl. symmetry. apply split_single, Hno. by left. }
  rewrite concat_cons by done. rewrite split_delimiter by (apply Hno; by left).
  f_equal. apply IH; [done|]. intros p Hp. apply Hno. by right.
Qed.

Lemma split_occurs_in s piece :
  piece ∈ Py.split_comma_space s → occurs_in piece s.
Proof.
  destruct (split_spec s) as (_ & E & _). rewrite <-E at 2. apply concat_occurs_in.
Qed.

End splitting.

(** ** The genre catalog *)

Lemma has_str_false (column : list (option string)) :
  has_str column = false ↔ column ≠ [] ∧ ∀ cell, cell ∈ column → cell = None.
Proof.
  destruct column as [|cell0 column]; [by split; [|intros [? _]]|].
  unfold has_str. rewrite <-not_true_iff_false, existsb_exists. split.
  - intros Hnone. split; [done|]. intros cell Hcell.
    destruct cell as [text|]; [|done]. destruct Hnone. exists (Some text).
    split; [by apply list_elem_of_In|]. by apply bool_decide_eq_true.
  - intros [_ Hnone] (cell & Hcell%list_elem_of_In & Hsome%bool_decide_eq_true).
    rewrite (Hnone cell Hcell) in Hsome. by destruct Hsome.
Qed.

Lemma has_str_genres_false (df : list Movie) :
  has_str (Genre <$> df) = false ↔ df ≠ [] ∧ ∀ row, row ∈ df → Genre row = None.
Proof.
  rewrite has_str_false. split.
  - intros [Hne Hnone]. split; [by intros ->|].
    intros row Hrow. apply Hnone, list_elem_of_fmap. by exists row.
  - intros [Hne Hnone]. split; [by destruct df|].
    intros cell (row & -> & Hrow)%list_elem_of_fmap. by apply Hnone.
Qed.

Lemma has_str_rows (df1 df2 : list Movie) :
  (∀ row, row ∈ df1 ↔ row ∈ df2) →
  has_str (Genre <$> df1) = has_str (Genre <$> df2).
Proof.
  assert (∀ df df' : list Movie,
            (∀ row, row ∈ df ↔ row ∈ df') →
            has_str (Genre <$> df) = false → has_str (Genre <$> df') = false) as Hone.
  { intros df df' Hrows [Hne Hnone]%has_str_genres_false.
    apply has_str_genres_false. split.
    - destruct df as [|row df]; [done|]. intros ->.
      by apply (elem_of_nil row), Hrows; left.
    - intros row Hrow. by apply Hnone, Hrows. }
  intros Hrows.
  destruct (has_str (Genre <$> df1)) eqn:E1, (has_str (Genre <$> df2)) eqn:E2;
    try done.
  - by rewrite (Hone df2 df1) in E1.
  - by rewrite (Hone df1 df2) in E2.
Qed.

(** [list_genres] raises exactly on the frames with rows of which none has
    a genre. *)
Lemma list_genres_None (df : list Movie) :
  list_genres df = None ↔ df ≠ [] ∧ ∀ row, row ∈ df → Genre row = None.
Proof.
  rewrite <-has_str_genres_false. unfold list_genres.
  by destruct (has_str (Genre <$> df)).
Qed.

Lemma elem_of_list_genres (df : list Movie) (genres : list string) (g : string) :
  list_genres df = Some genres →
  g ∈ genres ↔
  ∃ row field piece,
    row ∈ df ∧ Genre row = Some field ∧
    piece ∈ Py.split_comma_space field ∧ g = Py.strip piece.
Proof.
  unfold list_genres, dropna. destruct (has_str (Genre <$> df)); [|done].
  intros [= <-].
  rewrite merge_sort_Permutation, elem_of_elements, elem_of_list_to_set.
  rewrite list_elem_of_bind. split.
  - intros (sublist & (piece & -> & Hpiece)%list_elem_of_fmap
                    & (field & -> & Hfield)%list_elem_of_fmap).
    apply list_elem_of_omap in Hfield as (cell & Hcell & Hsome).
    apply list_elem_of_fmap in Hcell as (row & -> & Hrow).
    by exists row, field, piece.
  - intros (row & field & piece & Hrow & Hfield & Hpiece & ->).
    exists (Py.split_comma_space field). split.
    + apply list_elem_of_fmap. by exists piece.
    + apply list_elem_of_fmap. exists field. split; [done|].
      apply list_elem_of_omap. exists (Genre row). split; [|done].
      apply list_elem_of_fmap. by exists row.
Qed.

(** C7.  On a frame whose one row has no genre, [list_genres] raises
    where the row was to be skipped and the empty list returned.  A row
    without genre is skipped when another row has one, and the frame
    without rows gives the empty list. *)
Theorem catalog_raises_without_genre :
  Genre movie_D = None ∧
  list_genres [movie_D] = None ∧
  list_genres [movie_A; movie_D] = Some ["Drama"] ∧
  list_genres [] = Some [].
Proof. repeat split; by vm_compute. Qed.

(** X18.  [list_genres] raises on a frame that has rows of which none has
    a genre, and returns a list on every other frame.  The list is in
    lexicographic order and holds no entry twice; its entries are the
    pieces between the delimiters comma-blank of the genre fields, each
    without the white space around it; every entry occurs verbatim in the
    genre field of some row; and one more row without genre changes
    nothing. *)
Theorem list_genres_sorted_unique_verbatim (df : list Movie) :
  (list_genres df = None ↔ df ≠ [] ∧ ∀ row, row ∈ df → Genre row = None) ∧
  (∀ genres, list_genres df = Some genres →
     StronglySorted String.le genres ∧
     NoDup genres ∧
     (∀ g, g ∈ genres ↔
        ∃ row field pieces piece,
          row ∈ df ∧ Genre row = Some field ∧
          split_of field pieces ∧ piece ∈ pieces ∧ trim_of piece g) ∧
     (∀ g, g ∈ genres →
        ∃ row field, row ∈ df ∧ Genre row = Some field ∧ occurs_in g field) ∧
     (∀ row, Genre row = None → df ≠ [] →
        list_genres (row :: df) = Some genres)).
Proof.
  split; [apply list_genres_None|]. intros genres Hsome.
  split; [|split; [|split; [|split]]].
  - unfold list_genres in Hsome. destruct (has_str _); [|done].
    injection Hsome as <-. apply (StronglySorted_merge_sort _).
  - unfold list_genres in Hsome. destruct (has_str _); [|done].
    injection Hsome as <-. rewrite merge_sort_Permutation. apply NoDup_elements.
  - intros g. rewrite (elem_of_list_genres df genres g Hsome). split.
    + intros (row & field & piece & Hrow & Hfield & Hpiece & ->).
      exists row, field, (Py.split_comma_space field), piece.
      split; [done|]. split; [done|]. split; [apply split_spec|].
      split; [done|apply strip_trim_of].
    + intros (row & field & pieces & piece & Hrow & Hfield & Hsplit & Hpiece & Htrim).
      exists row, field, piece. split; [done|]. split; [done|].
      apply split_unique in Hsplit as <-. split; [done|]. by apply trim_of_strip.
  - intros g Hg.
    apply (elem_of_list_genres df genres g Hsome) in Hg
      as (row & field & piece & Hrow & Hfield & Hpiece & ->).
    exists row, field. split; [done|]. split; [done|].
    eapply occurs_in_trans; [apply strip_occurs_in|by apply split_occurs_in].
  - intros row Hnone Hne. rewrite <-Hsome. unfold list_genres, dropna.
    assert (has_str (Genre <$> df) = true) as Hstr.
    { unfold list_genres in Hsome. by destruct (has_str _). }
    assert (has_str (Genre <$> row :: df) = true) as ->.
    { destruct df as [|row' df]; [done|]. rewrite fmap_cons, Hnone.
      unfold has_str in *. simpl in *. done. }
    rewrite Hstr. simpl. by rewrite Hnone.
Qed.

Lemma list_genres_sorted_unique_verbatim_witness :
  (list_genres [movie_D] = None
   ↔ [movie_D] ≠ [] ∧ ∀ row, row ∈ [movie_D] → Genre row = None) ∧
  StronglySorted String.le ["Comedy"; "Drama"] ∧
  NoDup ["Comedy"; "Drama"] ∧
  (∀ g, g ∈ ["Comedy"; "Drama"] ↔
     ∃ row field pieces piece,
       row ∈ scenario ∧ Genre row = Some field ∧
       split_of field pieces ∧ piece ∈ pieces ∧ trim_of piece g) ∧
  (∀ g, g ∈ ["Comedy"; "Drama"] →
     ∃ row field, row ∈ scenario ∧ Genre row = Some field ∧ occurs_in g field) ∧
  (∀ row, Genre row = None → scenario ≠ [] →
     list_genres (row :: scenario) = Some ["Comedy"; "Drama"]).
Proof.
  split.
  - exact (proj1 (list_genres_sorted_unique_verbatim [movie_D])).
  - refine (proj2 (list_genres_sorted_unique_verbatim scenario) ["Comedy"; "Drama"] _).
    vm_compute. reflexivity.
Defined.

Example list_genres_example :
  list_genres [ read_row "A" "Drama, Action" "x" 8.0;
                read_row "B" "" "y" 7.0;
                read_row "C" "Comedy,  Drama " "z" 9.0 ]
  = Some ["Action"; "Comedy"; "Drama"].
Proof. vm_compute. reflexivity. Qed.
(** ** Substring search *)

Section search.
Implicit Types s t p text query : string.

Lemma isascii_app s t : Py.isascii (s +:+ t) = Py.isascii s && Py.isascii t.
Proof.
  induction s as [|c s IH]; [done|]. rewrite app_String. simpl.
  by rewrite IH, andb_assoc.
Qed.

(** On ASCII text [str.lower] works letter by letter. *)
Lemma lower_String c s :
  (Py.code c <? 128)%N = true →
  Py.lower (String c s) = String (Py.lower_char c) (Py.lower s).
Proof.
  intros Hc%N.ltb_lt. destruct s as [|c2 [|c3 s]]; try done.
  change (Py.lower (String c (String c2 (String c3 s)))) with
    (if Py.kelvin_sign c c2 c3 then String "k" (Py.lower s)
     else String (Py.lower_char c) (Py.lower (String c2 (String c3 s)))).
  assert (Py.kelvin_sign c c2 c3 = false) as ->; [|done].
  unfold Py.kelvin_sign. assert ((Py.code c =? 226)%N = false) as ->; [|done].
  apply N.eqb_neq. lia.
Qed.

Lemma lower_app s t :
  Py.isascii s = true → Py.lower (s +:+ t) = Py.lower s +:+ Py.lower t.
Proof.
  induction s as [|c s IH]; [done|]. simpl Py.isascii.
  intros [Hc Hs]%andb_true_iff.
  by rewrite app_String, !lower_String, app_String, IH.
Qed.

Lemma lower_app_inv s u v :
  Py.isascii s = true →
  Py.lower s = u +:+ v →
  ∃ s1 s2, s = s1 +:+ s2 ∧ Py.lower s1 = u ∧ Py.lower s2 = v.
Proof.
  revert s. induction u as [|c u IH]; intros s Hs E.
  { by exists "", s. }
  destruct s as [|d s]; [done|]. simpl in Hs.
  apply andb_true_iff in Hs as [Hd Hs].
  rewrite app_String, lower_String in E by done.
  injection E as Ec E. destruct (IH s Hs E) as (s1 & s2 & -> & <- & <-).
  exists (String d s1), s2. by rewrite app_String, lower_String, <-Ec.
Qed.

Lemma startswith_spec p s : Py.startswith p s = true ↔ ∃ after, s = p +:+ after.
Proof.
  revert s. induction p as [|a p IH]; intros s; simpl.
  { split; [by exists s|done]. }
  destruct s as [|b s].
  { split; [done|by intros [? ?]]. }
  rewrite andb_true_iff, bool_decide_eq_true, IH. split.
  - intros [-> [after ->]]. by exists after.
  - intros [after E]. rewrite app_String in E. injection E as -> ->. eauto.
Qed.

Lemma contains_spec p s : Py.contains p s = true ↔ occurs_in p s.
Proof.
  induction s as [|c s IH].
  - simpl. rewrite orb_false_r, startswith_spec. split.
    + intros [after E]. by exists "", after.
    + intros ([|? ?] & after & E); [by exists after|done].
  - simpl. rewrite orb_true_iff, startswith_spec, IH. split.
    + intros [[after E]|H]; [by exists "", after|by apply occurs_in_String].
    + intros ([|b before] & after & E).
      * left. by exists after.
      * right. rewrite app_String in E. injection E as -> ->. by exists before, after.
Qed.

(** In an ASCII text the search of a literal pattern finds the substrings
    that equal the pattern up to letter case. *)
Lemma contains_lower_spec query text :
  Py.isascii text = true →
  Py.contains (Py.lower query) (Py.lower text) = true ↔
  contains_ignoring_case query text.
Proof.
  intros Htext. rewrite contains_spec. split.
  - intros (b & a & E).
    apply lower_app_inv in E as (s1 & s23 & -> & <- & E); [|done].
    rewrite isascii_app in Htext. apply andb_true_iff in Htext as [_ H23].
    apply lower_app_inv in E as (s2 & s3 & -> & E & <-); [|done].
    by exists s1, s2, s3.
  - intros (b & m & a & -> & E).
    rewrite !isascii_app in Htext.
    apply andb_true_iff in Htext as [Hb [Hm _]%andb_true_iff].
    exists (Py.lower b), (Py.lower a). by rewrite !lower_app, E.
Qed.

(** The genre step on one cell whose text and pattern are plain ASCII. *)
Lemma str_contains_plain `{Library} pattern text :
  regex_plain pattern = true → Py.isascii pattern = true → Py.isascii text = true →
  str_contains pattern (Some text) = true ↔ contains_ignoring_case pattern text.
Proof.
  intros Hplain Hp Ht. unfold str_contains. rewrite Hplain, Hp, Ht. simpl.
  by apply contains_lower_spec.
Qed.

End search.

(** ** The filter steps and the loop *)

Section recommend.
Context `{Library}.
Implicit Types (row : Movie) (rows df : list Movie) (acc : list (string * float)).

Lemma elem_of_genre_filter genre df row :
  row ∈ genre_filter genre df ↔ row ∈ df ∧ genre_keeps genre row = true.
Proof.
  unfold genre_filter, genre_keeps.
  destruct genre as [g|]; [destruct (Py.truthy g)|]; try tauto.
  rewrite !list_elem_of_In, filter_In. tauto.
Qed.

Lemma elem_of_rating_filter rating df row :
  row ∈ rating_filter rating df ↔ row ∈ df ∧ rating_keeps rating row = true.
Proof.
  unfold rating_filter, rating_keeps.
  destruct rating as [r|]; [destruct (float_truthy r)|]; try tauto.
  rewrite !list_elem_of_In, filter_In. tauto.
Qed.

Lemma elem_of_filtered df genre rating row :
  row ∈ filtered df genre rating ↔
  row ∈ df ∧ genre_keeps genre row = true ∧ rating_keeps rating row = true.
Proof.
  unfold filtered. rewrite elem_of_rating_filter, elem_of_genre_filter. tauto.
Qed.

Lemma hits_cons mp row rows :
  hits mp (row :: rows) =
  match hit mp row with
  | Some e => e :: hits mp rows
  | None => hits mp rows
  end.
Proof. reflexivity. Qed.

Lemma elem_of_hits mp rows e :
  e ∈ hits mp rows ↔
  ∃ row overview,
    row ∈ rows ∧ Overview row = Some overview ∧
    mood_match mp (polarity overview) = true ∧ e = entry row overview.
Proof.
  unfold hits. rewrite list_elem_of_omap. unfold hit. split.
  - intros (row & Hrow & Hhit). destruct (Overview row) as [ov|] eqn:Eov; [|done].
    destruct (mood_match mp (polarity ov)) eqn:Em; [|done].
    exists row, ov. by simplify_eq.
  - intros (row & ov & Hrow & Eov & Em & ->). exists row. by rewrite Eov, Em.
Qed.

(** One pass of the loop body on a row that has an overview. *)
Lemma collect_cons mp top_n row rows acc :
  collect mp top_n (row :: rows) acc =
  match Overview row with
  | None => collect mp top_n rows acc
  | Some _ =>
      let acc' := acc ++ option_list (hit mp row) in
      if bool_decide (Z.of_nat (length acc') = top_n) then acc'
      else collect mp top_n rows acc'
  end.
Proof.
  simpl. unfold hit. destruct (Overview row) as [ov|]; [|done].
  destruct (mood_match mp (polarity ov)); simpl; by rewrite ?app_nil_r.
Qed.

Lemma hits_cons_app mp row rows :
  hits mp (row :: rows) = option_list (hit mp row) ++ hits mp rows.
Proof. rewrite hits_cons. by destruct (hit mp row). Qed.

(** The loop returns all the hits, or it stopped on the length test with
    some of the first of them. *)
Lemma collect_cases mp top_n rows acc :
  collect mp top_n rows acc = acc ++ hits mp rows ∨
  (Z.of_nat (length (collect mp top_n rows acc)) = top_n ∧
   ∃ k, collect mp top_n rows acc = acc ++ take k (hits mp rows)).
Proof.
  revert acc. induction rows as [|row rows IH]; intros acc.
  { left. simpl. by rewrite app_nil_r. }
  rewrite collect_cons, hits_cons_app, !app_assoc.
  destruct (Overview row) as [ov|] eqn:Eov.
  - cbn zeta. case_bool_decide as Hlen.
    + right. split; [done|]. exists (length (option_list (hit mp row))).
      rewrite take_app_length. reflexivity.
    + destruct (IH (acc ++ option_list (hit mp row))) as [->|[Hstop [k Hk]]]; [by left|].
      right. split; [exact Hstop|]. exists (length (option_list (hit mp row)) + k).
      rewrite take_app_add'; [|done]. by rewrite Hk, app_assoc.
  - assert (hit mp row = None) as -> by (unfold hit; by rewrite Eov).
    simpl. rewrite app_nil_r. apply IH.
Qed.

(** Below the limit the loop returns the hits up to the limit. *)
Lemma collect_below mp top_n rows acc :
  (Z.of_nat (length acc) < top_n)%Z →
  collect mp top_n rows acc =
  acc ++ take (Z.to_nat top_n - length acc) (hits mp rows).
Proof.
  revert acc. induction rows as [|row rows IH]; intros acc Hlt.
  { simpl. by rewrite take_nil, app_nil_r. }
  rewrite collect_cons, hits_cons.
  destruct (Overview row) as [ov|] eqn:Eov.
  - cbn zeta. destruct (hit mp row) as [e|]; simpl.
    + rewrite length_app. simpl. case_bool_decide as Hlen.
      * replace (Z.to_nat top_n - length acc) with 1 by lia.
        simpl. by rewrite take_0.
      * rewrite IH by (rewrite length_app; simpl; lia).
        rewrite <-app_assoc, length_app. simpl.
        replace (Z.to_nat top_n - length acc) with (S (Z.to_nat top_n - (length acc + 1))) by lia.
        done.
    + rewrite app_nil_r. case_bool_decide as Hlen; [lia|]. by apply IH.
  - assert (hit mp row = None) as -> by (unfold hit; by rewrite Eov).
    by apply IH.
Qed.

End recommend.

(** ** The reply of [recommend_movies] *)

Section replies.
Context `{Library}.
Implicit Types (row : Movie) (rows df shuffled : list Movie).

Lemma recommendations_of_recommend_from shuffled mood top_n :
  recommendations_of (recommend_from shuffled mood top_n) =
  collect (mood_polarity_of mood) top_n shuffled [].
Proof. unfold recommend_from. by destruct (collect _ _ _ _). Qed.

(** A reply is the message exactly when the loop collected nothing. *)
Lemma recommend_from_message shuffled mood top_n :
  recommend_from shuffled mood top_n = Message nothing_found
  ↔ collect (mood_polarity_of mood) top_n shuffled [] = [].
Proof. unfold recommend_from. by destruct (collect _ _ _ _). Qed.

Lemma recommend_from_recommendations shuffled mood top_n recs :
  recommend_from shuffled mood top_n = Recommendations recs →
  recs ≠ [] ∧ collect (mood_polarity_of mood) top_n shuffled [] = recs.
Proof. unfold recommend_from. destruct (collect _ _ _ _); naive_solver. Qed.

(** What is returned was a hit of some row that passed both filters. *)
Lemma elem_of_reply df genre mood rating top_n out e :
  recommend_movies df genre mood rating top_n out →
  e ∈ recommendations_of out →
  ∃ row overview,
    row ∈ filtered df genre rating ∧ Overview row = Some overview ∧
    mood_match (mood_polarity_of mood) (polarity overview) = true ∧
    e = entry row overview.
Proof.
  intros (_ & shuffled & Hperm & ->). rewrite recommendations_of_recommend_from.
  intros He.
  assert (e ∈ hits (mood_polarity_of mood) shuffled) as Hhit.
  { destruct (collect_cases (mood_polarity_of mood) top_n shuffled [])
      as [E|[_ [k E]]]; rewrite E in He; simpl in He; [done|].
    by eapply subseteq_take. }
  apply elem_of_hits in Hhit as (row & ov & Hrow & Hov & Hm & ->).
  exists row, ov. by rewrite <-Hperm.
Qed.

(** A row that passed both filters and the mood test is returned, unless
    the loop stopped on the length test. *)
Lemma reply_complete df genre mood rating top_n out row overview :
  recommend_movies df genre mood rating top_n out →
  row ∈ filtered df genre rating →
  Overview row = Some overview →
  mood_match (mood_polarity_of mood) (polarity overview) = true →
  Z.of_nat (length (recommendations_of out)) ≠ top_n →
  entry row overview ∈ recommendations_of out.
Proof.
  intros (_ & shuffled & Hperm & ->) Hrow Hov Hm.
  rewrite recommendations_of_recommend_from. intros Hlen.
  destruct (collect_cases (mood_polarity_of mood) top_n shuffled [])
    as [E|[Hstop _]]; [|done].
  rewrite E. simpl. apply elem_of_hits. exists row, overview.
  by rewrite Hperm.
Qed.


Lemma hits_nil_iff mp rows :
  hits mp rows = [] ↔ ∀ row, row ∈ rows → hit mp row = None.
Proof.
  induction rows as [|row rows IH]; [by split; [intros _ ? ?%elem_of_nil|]|].
  rewrite hits_cons. split.
  - intros E r [->|Hr]%elem_of_cons; destruct (hit mp row); try done.
    by apply IH.
  - intros Hall. rewrite (Hall row) by left. apply IH.
    intros r Hr. apply Hall. by right.
Qed.

(** With a limit other than zero the loop collects nothing exactly when
    there is no hit. *)
Lemma collect_nil_iff mp top_n rows :
  top_n ≠ 0%Z → collect mp top_n rows [] = [] ↔ hits mp rows = [].
Proof.
  intros Hn. destruct (collect_cases mp top_n rows []) as [E|[Hstop [k E]]].
  { by rewrite E. }
  split; intros E'.
  - rewrite E' in Hstop. simpl in Hstop. lia.
  - rewrite E, E'. simpl. by rewrite take_nil.
Qed.

End replies.

(** ** Floats *)

Lemma eqb_zero_inv (x : float) :
  PrimFloat.eqb x 0 = true → ∃ s, Prim2SF x = S754_zero s.
Proof.
  rewrite FloatAxioms.eqb_spec. unfold SFeqb. change (Prim2SF 0) with (S754_zero false).
  destruct (Prim2SF x) as [s| | |s m e]; simpl; try done.
  all: try (by exists s). all: try (by destruct s).
Qed.

(** Zero times any float, NaN and the infinities too, is not above zero. *)
Lemma zero_mul_not_positive (m p : float) :
  PrimFloat.eqb m 0 = true → PrimFloat.ltb 0 (PrimFloat.mul m p) = false.
Proof.
  intros [s Hm]%eqb_zero_inv. rewrite FloatAxioms.ltb_spec, FloatAxioms.mul_spec, Hm.
  change (Prim2SF 0) with (S754_zero false).
  by destruct (Prim2SF p).
Qed.

(** Rounding keeps the sign: a product above zero has the sign of its
    factors' signs combined. *)
Lemma round_sign prec emax s m e l :
  SFltb (S754_zero false) (binary_round_aux prec emax s m e l) = true → s = false.
Proof.
  unfold binary_round_aux.
  destruct (shr_fexp prec emax m e l) as [mrs' e'].
  destruct (shr_fexp prec emax _ e' loc_Exact) as [mrs'' e''].
  destruct (shr_m mrs'') as [|q|q]; [done| |done].
  destruct (e'' <=? emax - prec)%Z; by destruct s.
Qed.

(** A product above zero has two factors above zero or two below. *)
Lemma positive_product_same_sign (m p : float) :
  PrimFloat.ltb 0 (PrimFloat.mul m p) = true →
  (PrimFloat.ltb 0 m = true ∧ PrimFloat.ltb 0 p = true) ∨
  (PrimFloat.ltb m 0 = true ∧ PrimFloat.ltb p 0 = true).
Proof.
  rewrite !FloatAxioms.ltb_spec, FloatAxioms.mul_spec.
  change (Prim2SF 0) with (S754_zero false).
  destruct (Prim2SF m) as [sm|sm| |sm mm em], (Prim2SF p) as [sp|sp| |sp mp ep];
    try done.
  - destruct sm, sp; simpl; auto; done.
  - destruct sm, sp; simpl; auto; done.
  - destruct sm, sp; simpl; auto; done.
  - intros Hs%round_sign. destruct sm, sp; simpl; auto; done.
Qed.

Lemma mood_match_zero_mood (m p : float) :
  PrimFloat.eqb m 0 = true → PrimFloat.eqb p 0 = false →
  mood_match (Some m) p = false.
Proof.
  intros Hm Hp. simpl. by rewrite zero_mul_not_positive, Hp.
Qed.

(** *** Products that do not vanish *)

Lemma tiny_sf : Prim2SF tiny = S754_finite false 4503599627370496 (-563).
Proof. reflexivity. Qed.

Lemma shr_1_m mrs : (0 ≤ shr_m mrs)%Z → shr_m (shr_1 mrs) = Z.shiftr (shr_m mrs) 1.
Proof.
  destruct mrs as [m r s]. simpl. intros Hm.
  by destruct m as [|[p|p|]|p].
Qed.

Lemma shr_iter_m p mrs :
  (0 ≤ shr_m mrs)%Z → shr_m (SpecFloat.iter_pos shr_1 p mrs) = Z.shiftr (shr_m mrs) (Zpos p).
Proof.
  revert mrs. induction p as [p IH|p IH|]; intros mrs Hm; simpl.
  - assert (0 ≤ shr_m (shr_1 mrs))%Z as H1.
    { rewrite shr_1_m by done. by apply Z.shiftr_nonneg. }
    assert (0 ≤ shr_m (SpecFloat.iter_pos shr_1 p (shr_1 mrs)))%Z as H2.
    { rewrite IH by done. by apply Z.shiftr_nonneg. }
    rewrite IH, IH, shr_1_m by done. rewrite !Z.shiftr_shiftr by lia.
    f_equal. lia.
  - assert (0 ≤ shr_m (SpecFloat.iter_pos shr_1 p mrs))%Z as H2.
    { rewrite IH by done. by apply Z.shiftr_nonneg. }
    rewrite IH, IH by done. rewrite !Z.shiftr_shiftr by lia. f_equal. lia.
  - by apply shr_1_m.
Qed.

Lemma Zdigits2_log2 m : (0 < m)%Z → Zdigits2 m = (Z.log2 m + 1)%Z.
Proof.
  destruct m as [|p|p]; try lia. intros _. simpl.
  assert (digits2_pos p = Pos.size p) as ->.
  { induction p; simpl; congruence. }
  destruct p; simpl; lia.
Qed.

(** Shifting a mantissa into the format keeps it above zero when the
    number is at least the smallest one of the format. *)
Lemma shr_fexp_pos m e l :
  (0 < m)%Z → (emin < Zdigits2 m + e)%Z →
  let '(mrs', e') := shr_fexp prec emax m e l in
  (0 < shr_m mrs')%Z ∧ (Zdigits2 (shr_m mrs') + e' = Zdigits2 m + e)%Z.
Proof.
  intros Hm Hq. unfold shr_fexp, shr.
  assert (shr_m (shr_record_of_loc m l) = m) as Hrec.
  { by destruct l as [|[]]. }
  destruct (fexp prec emax (Zdigits2 m + e) - e)%Z as [|n|n] eqn:Hn;
    rewrite ?Hrec; try done.
  rewrite shr_iter_m by (rewrite Hrec; lia). rewrite Hrec.
  rewrite (Zdigits2_log2 m) in Hq, Hn |- * by done.
  unfold fexp, SpecFloat.emin, prec, emax in *.
  assert (Zpos n ≤ Z.log2 m)%Z as Hle by lia.
  assert (0 < Z.shiftr m (Zpos n))%Z as Hpos.
  { rewrite Z.shiftr_div_pow2 by lia. apply Z.div_str_pos. split; [lia|].
    etrans; [|apply Z.log2_spec; lia]. apply Z.pow_le_mono_r; lia. }
  split; [done|]. rewrite Zdigits2_log2 by done.
  rewrite Z.log2_shiftr by done. lia.
Qed.

Lemma round_nearest_even_ge m l : (m ≤ round_nearest_even m l)%Z.
Proof. destruct l as [|[]]; simpl; try lia. destruct (Z.even m); lia. Qed.

Lemma Zdigits2_mono m n : (0 < m ≤ n)%Z → (Zdigits2 m ≤ Zdigits2 n)%Z.
Proof.
  intros Hmn. rewrite !Zdigits2_log2 by lia.
  pose proof (Z.log2_le_mono m n). lia.
Qed.

Lemma binary_round_aux_not_zero s m e l :
  (0 < m)%Z → (emin < Zdigits2 m + e)%Z →
  (∃ m' e', binary_round_aux prec emax s m e l = S754_finite s m' e') ∨
  binary_round_aux prec emax s m e l = S754_infinity s.
Proof.
  intros Hm Hq. unfold binary_round_aux.
  pose proof (shr_fexp_pos m e l Hm Hq) as H1.
  destruct (shr_fexp prec emax m e l) as [mrs' e'].
  destruct H1 as [Hpos Hd].
  pose proof (round_nearest_even_ge (shr_m mrs') (loc_of_shr_record mrs')) as Hge.
  pose proof (shr_fexp_pos (round_nearest_even (shr_m mrs') (loc_of_shr_record mrs'))
                e' loc_Exact) as H2.
  destruct (shr_fexp prec emax _ e' loc_Exact) as [mrs'' e''].
  destruct H2 as [Hpos2 _]; [lia| |].
  { pose proof (Zdigits2_mono (shr_m mrs')
                  (round_nearest_even (shr_m mrs') (loc_of_shr_record mrs'))). lia. }
  destruct (shr_m mrs'') as [|q|q]; try lia.
  destruct (e'' <=? emax - prec)%Z; eauto.
Qed.

(** A float of magnitude 2^-511 or more is a normal number: its mantissa
    has all its 53 digits. *)
Lemma weighty_exponent (x : float) s m e :
  Prim2SF x = S754_finite s m e →
  weighty x = true →
  (-510 ≤ Zdigits2 (Zpos m) + e)%Z.
Proof.
  intros Hx. unfold weighty.
  rewrite FloatAxioms.leb_spec, FloatAxioms.abs_spec, Hx, tiny_sf. simpl SFabs.
  intros Hle. pose proof (Prim2SF_valid x) as Hvalid. rewrite Hx in Hvalid.
  simpl in Hvalid. unfold bounded, canonical_mantissa in Hvalid.
  apply andb_true_iff in Hvalid as [Hcanon _].
  apply Z.eqb_eq in Hcanon.
  unfold SFleb, SFcompare in Hle.
  assert (-563 ≤ e)%Z as He.
  { destruct (Z.compare_spec (-563) e); [lia|lia|done]. }
  unfold fexp, SpecFloat.emin, prec, emax in *.
  change (Zdigits2 (Z.pos m)) with (Z.pos (digits2_pos m)). lia.
Qed.

Lemma Zdigits2_mul (m n : positive) :
  (Zdigits2 (Zpos m) + Zdigits2 (Zpos n) - 1 ≤ Zdigits2 (Zpos (m * n)))%Z.
Proof.
  rewrite !Zdigits2_log2 by lia. rewrite Pos2Z.inj_mul.
  pose proof (Z.log2_mul_below (Zpos m) (Zpos n) ltac:(lia) ltac:(lia)). lia.
Qed.

(** The product of two floats of some weight and of the same sign is above
    zero. *)
Lemma weighty_product_positive (x y : float) :
  weighty x = true → weighty y = true →
  (PrimFloat.ltb 0 x = true ∧ PrimFloat.ltb 0 y = true) ∨
  (PrimFloat.ltb x 0 = true ∧ PrimFloat.ltb y 0 = true) →
  PrimFloat.ltb 0 (PrimFloat.mul x y) = true.
Proof.
  intros Hx Hy.
  pose proof (λ s m e H, weighty_exponent x s m e H Hx) as Hex.
  pose proof (λ s m e H, weighty_exponent y s m e H Hy) as Hey.
  rewrite !FloatAxioms.ltb_spec, FloatAxioms.mul_spec.
  change (Prim2SF 0) with (S754_zero false).
  destruct (Prim2SF x) as [sx|sx| |sx mx ex], (Prim2SF y) as [sy|sy| |sy my ey];
    try (by intros [[??]|[??]]).
  - by intros [[??]|[??]]; destruct sx, sy.
  - by intros [[??]|[??]]; destruct sx, sy.
  - by intros [[??]|[??]]; destruct sx, sy.
  - intros Hsign.
    assert (xorb sx sy = false) as Hs.
    { by destruct Hsign as [[??]|[??]]; destruct sx, sy. }
    unfold SF64mul, SFmul. rewrite Hs.
    specialize (Hex _ _ _ eq_refl). specialize (Hey _ _ _ eq_refl).
    pose proof (Zdigits2_mul mx my) as Hd.
    destruct (binary_round_aux_not_zero false (Zpos (mx * my)) (ex + ey) loc_Exact)
      as [(m' & e' & ->)| ->]; try done.
    unfold SpecFloat.emin, prec, emax. lia.
Qed.
(** ** The mood test *)

Section mood.
Context `{Library}.

(** Line 76 is the mood test. *)
Lemma mood_match_passes (mood : option string) (overview : string) :
  mood_match (mood_polarity_of mood) (polarity overview) = true
  ↔ passes_mood mood overview.
Proof.
  unfold passes_mood. destruct mood as [[|c text]|]; simpl.
  - split; [|done]. by intros _ ? [= <-].
  - rewrite orb_true_iff. split; [by intros ? ? [= <-]|].
    intros Htest. by apply Htest.
  - split; [|done]. by intros _ ? [=].
Qed.

Lemma hit_Some (mood : option string) (row : Movie) (e : string * float) :
  hit (mood_polarity_of mood) row = Some e ↔
  ∃ overview,
    Overview row = Some overview ∧ passes_mood mood overview ∧ e = entry row overview.
Proof.
  unfold hit. destruct (Overview row) as [ov|]; [|by split; [|intros (? & ? & _)]].
  destruct (mood_match _ _) eqn:E.
  - apply mood_match_passes in E. split; [intros [= <-]; by exists ov|].
    by intros (? & [= <-] & _ & ->).
  - split; [done|]. intros (? & [= <-] & E'%mood_match_passes & _). congruence.
Qed.

(** The hits of the loop are the pairs of the rows that pass the test. *)
Lemma passing_of_hits (mood : option string) (rows : list Movie) :
  passing_of mood rows (hits (mood_polarity_of mood) rows).
Proof.
  induction rows as [|row rows IH]; [constructor|]. rewrite hits_cons.
  unfold hit. destruct (Overview row) as [ov|] eqn:Eov.
  - destruct (mood_match _ _) eqn:E.
    + apply passing_pass; [done|by apply mood_match_passes|done].
    + eapply passing_fail; [done| |done]. rewrite <-mood_match_passes. congruence.
  - by apply passing_no_overview.
Qed.

Lemma passing_of_unique (mood : option string) (rows : list Movie)
    (pairs1 pairs2 : list (string * float)) :
  passing_of mood rows pairs1 → passing_of mood rows pairs2 → pairs1 = pairs2.
Proof.
  intros H1. revert pairs2.
  induction H1 as [|row ov rows pairs Hov Hp _ IH|row rows pairs Hov _ IH
                  |row ov rows pairs Hov Hp _ IH];
    intros pairs2 H2; inversion H2; simplify_eq; try done; try (by apply IH).
  f_equal. by apply IH.
Qed.

End mood.

(** C1, as the code has it.  The reply to a call that returns is made of
    the pairs of the rows that passed the genre and rating steps, have an
    overview and pass the mood test, in the order of the shuffle: all of
    them, or, the loop having stopped at the limit, the first of them, and
    for a limit of one or more the first up to the limit.  With a mood
    text that is not empty the test is [mood_polarity * polarity > 0 or
    polarity == 0], the mood's polarity being that of the text; with no
    mood text, or the empty one, there is no test.  So a row is returned
    only if it passes, and a row that passes is returned unless the reply
    holds as many pairs as the limit. *)
Theorem mood_test_decides `{Library} (df : list Movie) (genre mood : option string)
    (rating : option float) (top_n : Z) (out : reply) :
  recommend_movies df genre mood rating top_n out →
  (∀ e, e ∈ recommendations_of out →
     ∃ row overview,
       row ∈ filtered df genre rating ∧ Overview row = Some overview ∧
       passes_mood mood overview ∧ e = entry row overview) ∧
  (∀ row overview,
     row ∈ filtered df genre rating → Overview row = Some overview →
     passes_mood mood overview →
     entry row overview ∈ recommendations_of out
     ∨ Z.of_nat (length (recommendations_of out)) = top_n) ∧
  (∃ shuffled passing,
     shuffled ≡ₚ filtered df genre rating ∧
     passing_of mood shuffled passing ∧
     (recommendations_of out = passing
      ∨ (Z.of_nat (length (recommendations_of out)) = top_n
         ∧ ∃ k, recommendations_of out = take k passing)) ∧
     ((1 ≤ top_n)%Z → recommendations_of out = take (Z.to_nat top_n) passing)).
Proof.
  intros Hout. split; [|split].
  - intros e (row & ov & Hrow & Hov & Hm & ->)%(elem_of_reply _ _ _ _ _ _ _ Hout).
    exists row, ov. split; [done|]. split; [done|]. split; [|done].
    by apply mood_match_passes.
  - intros row ov Hrow Hov Hpass%mood_match_passes.
    destruct (decide (Z.of_nat (length (recommendations_of out)) = top_n));
      [by right|left].
    by eapply reply_complete.
  - destruct Hout as (_ & shuffled & Hperm & ->).
    exists shuffled, (hits (mood_polarity_of mood) shuffled).
    split; [done|]. split; [apply passing_of_hits|].
    rewrite recommendations_of_recommend_from. split.
    + destruct (collect_cases (mood_polarity_of mood) top_n shuffled [])
        as [E|[Hstop [k E]]]; [by left|right].
      split; [done|]. by exists k.
    + intros Hn. rewrite collect_below by (simpl; lia). simpl.
      by rewrite Nat.sub_0_r.
Qed.

Lemma mood_test_decides_witness :
  (∀ e, e ∈ [("B", 0.8%float)] →
     ∃ row overview,
       row ∈ filtered (H := examples) scenario None None ∧
       Overview row = Some overview ∧
       passes_mood (H := examples) (Some "glad and happy") overview ∧
       e = entry (H := examples) row overview) ∧
  (∀ row overview,
     row ∈ filtered (H := examples) scenario None None →
     Overview row = Some overview →
     passes_mood (H := examples) (Some "glad and happy") overview →
     entry (H := examples) row overview ∈ [("B", 0.8%float)]
     ∨ Z.of_nat (length [("B", 0.8%float)]) = 5%Z).
Proof.
  pose proof (mood_test_decides (H := examples) scenario None (Some "glad and happy")
                None 5 (Recommendations [("B", 0.8%float)])) as Hthm.
  destruct Hthm as (Honly & Hif & _).
  - split; [reflexivity|]. exists scenario. split; [done|]. vm_compute. reflexivity.
  - split; [exact Honly|exact Hif].
Defined.

(** C1 fails as stated.  With the limit one and two rows whose overviews
    both have polarity zero, every reply holds one pair: a row that passes
    the test is left out, with a mood text and with the empty one.  And a
    row that the genre step removed is not returned, though there is no
    mood test. *)
Lemma passing_record_left_out :
  (Overview movie_N = Some "A story" ∧ Overview movie_M = Some "A tale" ∧
   PrimFloat.eqb (polarity (Library := examples) "A story") 0 = true ∧
   PrimFloat.eqb (polarity (Library := examples) "A tale") 0 = true) ∧
  (recommend_movies (H := examples) [movie_N; movie_M] None (Some "happy") None 1
     (Recommendations [("N", 0%float)]) ∧
   ∀ out,
     recommend_movies (H := examples) [movie_N; movie_M] None (Some "happy") None 1 out →
     out = Recommendations [("N", 0%float)] ∨ out = Recommendations [("M", 0%float)]) ∧
  (recommend_movies (H := examples) [movie_N; movie_M] None (Some "") None 1
     (Recommendations [("N", 0%float)]) ∧
   ∀ out,
     recommend_movies (H := examples) [movie_N; movie_M] None (Some "") None 1 out →
     out = Recommendations [("N", 0%float)] ∨ out = Recommendations [("M", 0%float)]) ∧
  (Overview movie_B = Some "A happy tale" ∧
   ∀ out,
     recommend_movies (H := examples) scenario (Some "Drama") (Some "") None 5 out →
     out = Recommendations [("A", (-0.5)%float)]).
Proof.
  assert (∀ mood out,
            mood = Some "happy" ∨ mood = Some "" →
            recommend_movies (H := examples) [movie_N; movie_M] None mood None 1 out →
            out = Recommendations [("N", 0%float)]
            ∨ out = Recommendations [("M", 0%float)]) as Hone.
  { intros mood out Hmood (_ & shuffled & Hperm & ->). symmetry in Hperm.
    change (filtered (H := examples) [movie_N; movie_M] None None)
      with [movie_N; movie_M] in Hperm.
    apply Permutation_length_2_inv in Hperm as [-> | ->];
      destruct Hmood as [-> | ->]; vm_compute; auto. }
  split; [by repeat split|]. split; [|split].
  - split; [|intros out; apply Hone; by left].
    split; [reflexivity|]. exists [movie_N; movie_M]. split; [done|].
    vm_compute. reflexivity.
  - split; [|intros out; apply Hone; by right].
    split; [reflexivity|]. exists [movie_N; movie_M]. split; [done|].
    vm_compute. reflexivity.
  - split; [reflexivity|]. intros out (_ & shuffled & Hperm & ->). symmetry in Hperm.
    change (filtered (H := examples) scenario (Some "Drama") None)
      with [movie_A; movie_C] in Hperm.
    apply Permutation_length_2_inv in Hperm as [-> | ->]; vm_compute; reflexivity.
Qed.
(** C4, as the code has it.  For a mood text that is not empty, a row with
    an overview that passed the genre and rating steps is returned, unless
    the reply holds as many pairs as the limit, whenever the polarity of
    its overview has the sign of the mood's polarity, both with some
    weight, and whenever the polarity of its overview is zero.  A row that
    is returned has an overview of polarity zero or of the sign of the
    mood's polarity; and when the polarity of the mood is zero and that of
    the overview is not, the row is not returned. *)
Theorem mood_sign_matching `{Library} (df : list Movie) (genre : option string)
    (text : string) (rating : option float) (top_n : Z) (out : reply)
    (row : Movie) (overview : string) :
  recommend_movies df genre (Some text) rating top_n out →
  text ≠ "" →
  row ∈ filtered df genre rating →
  Overview row = Some overview →
  let m := polarity text in
  let p := polarity overview in
  let included := entry row overview ∈ recommendations_of out in
  let cut_short := Z.of_nat (length (recommendations_of out)) = top_n in
  let same_sign :=
    (PrimFloat.ltb 0 m = true ∧ PrimFloat.ltb 0 p = true) ∨
    (PrimFloat.ltb m 0 = true ∧ PrimFloat.ltb p 0 = true) in
  (same_sign → weighty m = true → weighty p = true → ¬ cut_short → included) ∧
  (PrimFloat.eqb p 0 = true → ¬ cut_short → included) ∧
  (included → PrimFloat.eqb p 0 = true ∨ same_sign) ∧
  (PrimFloat.eqb m 0 = true → PrimFloat.eqb p 0 = false → ¬ included).
Proof.
  intros Hout Htext Hrow Hov m p included cut_short same_sign.
  assert (mood_polarity_of (Some text) = Some m) as Hmp.
  { simpl. by destruct text. }
  assert (included → mood_match (Some m) p = true) as Htest.
  { intros (row' & ov' & _ & _ & Hmatch & He)%(elem_of_reply _ _ _ _ _ _ _ Hout).
    injection He as _ He. unfold p. by rewrite <-Hmp, He. }
  assert (mood_match (Some m) p = true → ¬ cut_short → included) as Hpass.
  { intros Hmatch Hcut. eapply reply_complete; eauto. by rewrite Hmp. }
  split; [|split; [|split]].
  - intros Hsign Hm Hp. apply Hpass. simpl.
    by rewrite weighty_product_positive.
  - intros Hzero. apply Hpass. simpl. rewrite Hzero. apply orb_true_r.
  - intros [Hpos|Hzero]%Htest%orb_true_iff; [right|by left].
    by apply positive_product_same_sign.
  - intros Hm Hp Hin%Htest. by rewrite mood_match_zero_mood in Hin.
Qed.

Lemma mood_sign_matching_witness :
  entry (H := examples) movie_B "A happy tale"
    ∈ recommendations_of (Recommendations [("B", 0.8%float)]).
Proof.
  refine (proj1 (mood_sign_matching (H := examples) scenario None "glad and happy"
                   None 5 (Recommendations [("B", 0.8%float)]) movie_B
                   "A happy tale" _ _ _ _)
            _ _ _ _).
  - split; [reflexivity|]. exists scenario. split; [done|]. vm_compute. reflexivity.
  - discriminate.
  - vm_compute. right. left.
  - reflexivity.
  - left. split; reflexivity.
  - reflexivity.
  - reflexivity.
  - discriminate.
Defined.

(** C4 fails as stated.  With a mood text of polarity zero, a row whose
    overview has polarity 0.8 is not returned.  And with the limit one
    and two rows whose overviews have the sign of the mood, every reply
    holds one pair: a row of the mood's sign is left out. *)
Lemma neutral_mood_excludes :
  (polarity (Library := examples) "table" = 0%float ∧
   Overview movie_B = Some "A happy tale" ∧
   polarity (Library := examples) "A happy tale" = 0.8%float ∧
   ∀ out, recommend_movies (H := examples) [movie_B] None (Some "table") None 5 out →
          out = Message nothing_found) ∧
  (polarity (Library := examples) "happy" = 0.8%float ∧
   Overview movie_H = Some "A happy end" ∧
   polarity (Library := examples) "A happy end" = 0.8%float ∧
   ∀ out,
     recommend_movies (H := examples) [movie_B; movie_H] None (Some "happy") None 1 out →
     out = Recommendations [("B", 0.8%float)] ∨ out = Recommendations [("H", 0.8%float)]).
Proof.
  split.
  - split; [reflexivity|]. split; [reflexivity|]. split; [reflexivity|].
    intros out (_ & shuffled & Hperm & ->).
    apply Permutation_singleton_r in Hperm as ->. vm_compute. reflexivity.
  - split; [reflexivity|]. split; [reflexivity|]. split; [reflexivity|].
    intros out (_ & shuffled & Hperm & ->). symmetry in Hperm.
    change (filtered (H := examples) [movie_B; movie_H] None None)
      with [movie_B; movie_H] in Hperm.
    apply Permutation_length_2_inv in Hperm as [-> | ->]; vm_compute; auto.
Qed.

(** ** The empty result and the limit *)

(** With a limit other than zero, the message is the reply exactly when
    no row matches. *)
Lemma message_iff_no_match `{Library} (df : list Movie)
    (genre mood : option string) (rating : option float) (top_n : Z) (out : reply) :
  recommend_movies df genre mood rating top_n out →
  top_n ≠ 0%Z →
  out = Message nothing_found ↔ ∀ row, row ∈ df → ¬ suits genre mood rating row.
Proof.
  intros (_ & shuffled & Hperm & ->) Hn.
  rewrite recommend_from_message, collect_nil_iff, hits_nil_iff by done.
  split.
  - intros Hnone row Hrow (Hg & Hr & Hhit).
    rewrite (Hnone row) in Hhit; [by destruct Hhit|].
    rewrite Hperm. by apply elem_of_filtered.
  - intros Hnone row Hrow. rewrite Hperm in Hrow.
    apply elem_of_filtered in Hrow as (Hrow & Hg & Hr).
    destruct (hit (mood_polarity_of mood) row) eqn:E; [|done].
    destruct (Hnone row Hrow). unfold suits. by rewrite E.
Qed.



(** C6, as the code has it.  With a limit of one or more the loop stops as
    soon as that many pairs are collected: the reply holds the first hits
    of the shuffled rows up to the limit, so no more pairs than the limit. *)
Theorem limit_bounds_result `{Library} (df : list Movie)
    (genre mood : option string) (rating : option float) (top_n : Z) (out : reply) :
  recommend_movies df genre mood rating top_n out →
  (1 ≤ top_n)%Z →
  (Z.of_nat (length (recommendations_of out)) ≤ top_n)%Z ∧
  ∃ shuffled,
    shuffled ≡ₚ filtered df genre rating ∧
    recommendations_of out =
    take (Z.to_nat top_n) (hits (mood_polarity_of mood) shuffled).
Proof.
  intros (_ & shuffled & Hperm & ->) Hn.
  rewrite recommendations_of_recommend_from, collect_below by (simpl; lia).
  simpl. rewrite Nat.sub_0_r. split; [|by exists shuffled].
  rewrite length_take. lia.
Qed.

Lemma limit_bounds_result_witness :
  (Z.of_nat (length (recommendations_of
     (Recommendations [("A", (-0.5)%float)]))) ≤ 1)%Z ∧
  ∃ shuffled,
    shuffled ≡ₚ filtered (H := examples) scenario None None ∧
    recommendations_of (Recommendations [("A", (-0.5)%float)]) =
    take (Z.to_nat 1) (hits (H := examples) (mood_polarity_of (H := examples) None) shuffled).
Proof.
  refine (limit_bounds_result (H := examples) scenario None None None 1
            (Recommendations [("A", (-0.5)%float)]) _ _).
  - split; [reflexivity|]. exists scenario. split; [done|]. vm_compute. reflexivity.
  - lia.
Defined.

(** C6 fails as stated: with the limit zero a data frame of one row yields
    one recommendation, and with a limit below zero every match is
    returned. *)
Lemma limit_zero_returns_one :
  (∀ out, recommend_movies (H := examples) [movie_A] None None None 0 out →
          out = Recommendations [("A", (-0.5)%float)]) ∧
  ¬ (Z.of_nat (length [("A", (-0.5)%float)]) ≤ 0)%Z ∧
  recommend_movies (H := examples) scenario None None None (-1)
    (Recommendations [("A", (-0.5)%float); ("B", 0.8%float)]).
Proof.
  split; [|split; [vm_compute; by intros H|]].
  - intros out (_ & shuffled & Hperm & ->).
    apply Permutation_singleton_r in Hperm as ->. vm_compute. reflexivity.
  - split; [reflexivity|]. exists scenario. split; [done|]. vm_compute. reflexivity.
Qed.

(** ** The genre and rating steps *)




(** C10.  With a genre that is not empty, a row whose genre field is
    missing does not pass the genre step, and every pair returned is that
    of a row with a genre field; with no genre given the row passes, the
    rating step permitting. *)
Theorem missing_genre_excluded `{Library} (df : list Movie) (g : string)
    (rating : option float) (row : Movie) :
  g ≠ "" →
  row ∈ df →
  Genre row = None →
  (row ∉ filtered df (Some g) rating) ∧
  (∀ mood top_n out e,
     recommend_movies df (Some g) mood rating top_n out →
     e ∈ recommendations_of out →
     ∃ row' overview,
       row' ∈ df ∧ is_Some (Genre row') ∧
       Overview row' = Some overview ∧ e = entry row' overview) ∧
  (rating_keeps rating row = true → row ∈ filtered df None rating).
Proof.
  intros Hg Hrow Hnone.
  assert (Py.truthy g = true) as Ht by by destruct g.
  split; [|split].
  - intros (_ & Hkeep & _)%elem_of_filtered. simpl in Hkeep.
    by rewrite Ht, Hnone in Hkeep.
  - intros mood top_n out e Hout
      (row' & ov & Hrow' & Hov & _ & ->)%(elem_of_reply _ _ _ _ _ _ _ Hout).
    apply elem_of_filtered in Hrow' as (Hrow' & Hkeep & _).
    exists row', ov. split; [done|]. split; [|done].
    simpl in Hkeep. rewrite Ht in Hkeep. unfold str_contains in Hkeep.
    by destruct (Genre row').
  - intros Hr. by apply elem_of_filtered.
Qed.

Lemma missing_genre_excluded_witness :
  (movie_D ∉ filtered (H := examples) [movie_A; movie_D] (Some "Drama") None) ∧
  (∃ row' overview,
     row' ∈ [movie_A; movie_D] ∧ is_Some (Genre row') ∧
     Overview row' = Some overview ∧
     ("A", (-0.5)%float) = entry (H := examples) row' overview) ∧
  (movie_D ∈ filtered (H := examples) [movie_A; movie_D] None None).
Proof.
  pose proof (missing_genre_excluded (H := examples) [movie_A; movie_D]
                "Drama" None movie_D) as Hthm.
  destruct Hthm as (Hout & Hreply & Hkept).
  - discriminate.
  - right. left.
  - reflexivity.
  - split; [exact Hout|]. split; [|by apply Hkept].
    apply (Hreply None 5%Z (Recommendations [("A", (-0.5)%float)])); [|left].
    split; [reflexivity|]. exists [movie_A]. split; [|reflexivity].
    vm_compute. reflexivity.
Defined.

(** C3.  On the three rows of the scenario, with the genre Drama and the
    minimum rating 7.6 and no mood, the rows that reach the loop are A and
    C; C has no overview and is skipped, so whatever the order and the
    limit the reply is the pair of A alone. *)
Theorem scenario_drama_returns_A `{Library} (top_n : Z) (out : reply) :
  recommend_movies scenario (Some "Drama") None (Some 7.6%float) top_n out →
  filtered scenario (Some "Drama") (Some 7.6%float) = [movie_A; movie_C] ∧
  Overview movie_C = None ∧
  out = Recommendations [("A", polarity "A sad story")].
Proof.
  assert (filtered scenario (Some "Drama") (Some 7.6%float) = [movie_A; movie_C])
    as Hfiltered by (vm_compute; reflexivity).
  intros (_ & shuffled & Hperm & ->). rewrite Hfiltered in Hperm.
  split; [done|]. split; [done|].
  symmetry in Hperm. apply Permutation_length_2_inv in Hperm as [-> | ->].
  - unfold recommend_from. simpl. case_bool_decide; reflexivity.
  - unfold recommend_from. simpl. case_bool_decide; reflexivity.
Qed.

Lemma scenario_drama_returns_A_witness :
  filtered (H := examples) scenario (Some "Drama") (Some 7.6%float)
  = [movie_A; movie_C] ∧
  Overview movie_C = None ∧
  Recommendations [("A", (-0.5)%float)]
  = Recommendations [("A", polarity (Library := examples) "A sad story")].
Proof.
  refine (scenario_drama_returns_A (H := examples) 5
            (Recommendations [("A", (-0.5)%float)]) _).
  split; [reflexivity|]. exists [movie_C; movie_A]. split; [|reflexivity]. vm_compute. apply perm_swap.
Defined.

(** ** The prompts *)

Section prompts.
Context {A : Type} (pass : string → answer A).

Lemma ask_retry line stdin message :
  pass line = Retry message → ask pass (line :: stdin) = ask pass stdin.
Proof. intros E. simpl. by rewrite E. Qed.

Lemma ask_accept line stdin value :
  pass line = Accept value → ask pass (line :: stdin) = Some (value, stdin).
Proof. intros E. simpl. by rewrite E. Qed.

(** A prompt that returns has read some lines it sent back, then one it
    accepted. *)
Lemma ask_Some stdin value rest :
  ask pass stdin = Some (value, rest) →
  ∃ rejected line,
    stdin = rejected ++ line :: rest ∧
    Forall (λ l, ∃ message, pass l = Retry message) rejected ∧
    pass line = Accept value.
Proof.
  induction stdin as [|line stdin IH]; [done|]. simpl.
  destruct (pass line) as [v|m|e|] eqn:E; [| |done|done].
  - intros [= -> ->]. by exists [], line.
  - intros (rejected & l & -> & Hall & Hl)%IH.
    exists (line :: rejected), l. split; [done|]. split; [|done].
    constructor; [by exists m|done].
Qed.

(** Lines sent back are skipped, the first line accepted ends the prompt. *)
Lemma ask_app rejected line rest value :
  Forall (λ l, ∃ message, pass l = Retry message) rejected →
  pass line = Accept value →
  ask pass (rejected ++ line :: rest) = Some (value, rest).
Proof.
  intros Hall Hline. induction Hall as [|l ls [m Hl] _ IH]; simpl.
  - by rewrite Hline.
  - by rewrite Hl.
Qed.

End prompts.

Lemma elem_of_more_calls (this c : call) (stdin : list string) :
  c ∈ more_calls this stdin → c = this.
Proof.
  induction stdin as [|line stdin IH]; simpl; [by intros ?%elem_of_nil|].
  repeat case_bool_decide; [by intros ?%elem_of_nil| |done].
  intros [->|?]%elem_of_cons; [done|by apply IH].
Qed.

Section rating.
Context `{Library}.

Lemma rating_answer_skip line :
  rating_answer line = Accept None ↔ Py.lower (Py.strip line) = "skip".
Proof.
  unfold rating_answer. case_bool_decide as Hskip; [done|].
  destruct (float_of (Py.strip line)) as [r|]; [|done].
  by destruct (rating_in_range r).
Qed.

Lemma rating_answer_float line r :
  rating_answer line = Accept (Some r) ↔
  Py.lower (Py.strip line) ≠ "skip" ∧ float_of (Py.strip line) = Some r ∧
  PrimFloat.leb 7.6 r = true ∧ PrimFloat.leb r 9.3 = true.
Proof.
  unfold rating_answer, rating_in_range. case_bool_decide as Hskip.
  { split; [done|]. by intros [? _]. }
  destruct (float_of (Py.strip line)) as [r'|].
  2: { split; [done|]. by intros (_ & ? & _). }
  destruct (PrimFloat.leb 7.6 r') eqn:Hlo, (PrimFloat.leb r' 9.3) eqn:Hhi; simpl.
  - split; [by intros [= <-]|by intros (_ & [= <-] & _)].
  - split; [done|]. intros (_ & [= <-] & _ & ?). congruence.
  - split; [done|]. intros (_ & [= <-] & ? & _). congruence.
  - split; [done|]. intros (_ & [= <-] & ? & _). congruence.
Qed.

Lemma rating_answer_retry line :
  Py.lower (Py.strip line) ≠ "skip" →
  (∀ r, float_of (Py.strip line) = Some r → rating_in_range r = false) →
  ∃ message, rating_answer line = Retry message.
Proof.
  intros Hskip Hout. unfold rating_answer. rewrite bool_decide_eq_false_2 by done.
  destruct (float_of (Py.strip line)) as [r|]; [|by eauto].
  rewrite (Hout r) by done. by eauto.
Qed.

Lemma rating_answer_no_raise line exception : rating_answer line ≠ Raise exception.
Proof.
  unfold rating_answer. case_bool_decide; [done|].
  destruct (float_of _) as [r|]; [|done]. by destruct (rating_in_range r).
Qed.

End rating.

Lemma genre_answer_elem (genres : list string) (line g : string) :
  genre_answer genres line = Accept g → g ∈ genres.
Proof.
  unfold genre_answer. destruct (negb (Py.isascii (Py.strip line))); [done|].
  destruct (Py.isdigit (Py.strip line) && bool_decide _).
  - destruct (genres !! _) as [g'|] eqn:Hlookup; [|done].
    intros [= ->]. by eapply list_elem_of_lookup_2.
  - case_bool_decide as Hin; [|done]. by intros [= <-].
Qed.

(** Every call of a session has the limit five and a genre of the
    catalog; so the message is its reply exactly when no row matches. *)
Lemma handle_ai_call `{Library} (genres stdin : list string) (c : call) :
  c ∈ handle_ai genres stdin → call_top_n c = 5%Z ∧ call_genre c ∈ genres.
Proof.
  unfold handle_ai.
  destruct (ask (genre_answer genres) stdin) as [[genre [|mood stdin1]]|] eqn:Hgenre;
    try by intros ?%elem_of_nil.
  destruct (ask rating_answer stdin1) as [[rating stdin2]|];
    [|by intros ?%elem_of_nil].
  intros Hc.
  assert (c = {| call_genre := genre; call_mood := Py.strip mood;
                 call_rating := rating; call_top_n := 5 |}) as ->.
  { apply elem_of_cons in Hc as [->|Hc]; [done|]. by eapply elem_of_more_calls. }
  split; [done|]. simpl.
  apply ask_Some in Hgenre as (_ & line & _ & _ & Hline).
  by eapply genre_answer_elem.
Qed.

Lemma session_message_iff_no_match `{Library} (df : list Movie)
    (genres stdin : list string) (c : call) (out : reply) :
  c ∈ handle_ai genres stdin →
  reply_to df c out →
  out = Message nothing_found
  ↔ ∀ row, row ∈ df →
      ¬ suits (Some (call_genre c)) (Some (call_mood c)) (call_rating c) row.
Proof.
  intros [Hn _]%handle_ai_call Hout.
  eapply message_iff_no_match; [done|]. rewrite Hn. lia.
Qed.

(** C8, as the code has it.  The rating prompt leaves its loop only with
    no rating, on a line that reads skip in any letter case once trimmed,
    or with a float between 7.6 and 9.3, bounds included; any other line,
    9.5 for one, is sent back and the next line is read.  So the rating of
    every call that [handle_ai] makes is absent or between 7.6 and 9.3. *)
Theorem rating_prompt `{Library} :
  (∀ line, rating_answer line = Accept None ↔ Py.lower (Py.strip line) = "skip") ∧
  (∀ line r,
     rating_answer line = Accept (Some r) ↔
     Py.lower (Py.strip line) ≠ "skip" ∧ float_of (Py.strip line) = Some r ∧
     PrimFloat.leb 7.6 r = true ∧ PrimFloat.leb r 9.3 = true) ∧
  (∀ line,
     Py.lower (Py.strip line) ≠ "skip" →
     (∀ r, float_of (Py.strip line) = Some r → rating_in_range r = false) →
     ∀ stdin, ask rating_answer (line :: stdin) = ask rating_answer stdin) ∧
  (float_of "9.5" = Some 9.5%float →
   ∀ stdin, ask rating_answer ("9.5" :: stdin) = ask rating_answer stdin) ∧
  (∀ stdin rating rest,
     ask rating_answer stdin = Some (rating, rest) →
     ∃ rejected line,
       stdin = rejected ++ line :: rest ∧
       Forall (λ l, ∃ message, rating_answer l = Retry message) rejected ∧
       rating_answer line = Accept rating) ∧
  (∀ rejected line rest rating,
     Forall (λ l, ∃ message, rating_answer l = Retry message) rejected →
     rating_answer line = Accept rating →
     ask rating_answer (rejected ++ line :: rest) = Some (rating, rest)) ∧
  (∀ genres stdin c,
     c ∈ handle_ai genres stdin →
     call_rating c = None ∨
     ∃ r, call_rating c = Some r ∧
          PrimFloat.leb 7.6 r = true ∧ PrimFloat.leb r 9.3 = true).
Proof.
  split; [apply rating_answer_skip|]. split; [apply rating_answer_float|].
  split; [|split; [|split; [|split]]].
  - intros line Hskip Hout stdin.
    destruct (rating_answer_retry line Hskip Hout) as [m Hm].
    by eapply ask_retry.
  - intros Hfloat stdin.
    destruct (rating_answer_retry "9.5") as [m Hm]; [done| |by eapply ask_retry].
    intros r Hr. change (Py.strip "9.5") with "9.5" in Hr. by simplify_eq.
  - apply ask_Some.
  - apply ask_app.
  - intros genres stdin c. unfold handle_ai.
    destruct (ask (genre_answer genres) stdin) as [[genre [|mood stdin1]]|];
      try by intros ?%elem_of_nil.
    destruct (ask rating_answer stdin1) as [[rating stdin2]|] eqn:Hask;
      [|by intros ?%elem_of_nil].
    intros Hc.
    assert (c = {| call_genre := genre; call_mood := Py.strip mood;
                   call_rating := rating; call_top_n := 5 |}) as ->.
    { apply elem_of_cons in Hc as [->|Hc]; [done|]. by eapply elem_of_more_calls. }
    simpl. apply ask_Some in Hask as (rejected & line & _ & _ & Hline).
    destruct rating as [r|]; [right|by left].
    apply rating_answer_float in Hline as (_ & _ & Hlo & Hhi). by exists r.
Qed.

Lemma rating_prompt_witness :
  ask (rating_answer (H := examples)) ["9.5"; "good"; "7.5"; "8.5"; "yes"]
  = ask (rating_answer (H := examples)) ["good"; "7.5"; "8.5"; "yes"].
Proof.
  refine (proj1 (proj2 (proj2 (proj2 (rating_prompt (H := examples))))) _ _).
  reflexivity.
Defined.

(** C8 fails as stated: a line that is not the literal skip, here in
    capitals with blanks around, ends the prompt with no rating. *)
Lemma capital_skip_accepted :
  " SKIP " ≠ "skip" ∧ rating_answer (H := examples) " SKIP " = Accept None.
Proof. split; [discriminate|reflexivity]. Qed.

(** C9.  The genre prompt looks the trimmed line up in title case.  On
    the catalog of a frame whose one genre is drama, in lower case, the
    line that reads drama is sent back, with the message for invalid
    input, and the next line is read; only the number of the entry selects
    it. *)
Theorem verbatim_entry_refused :
  list_genres [read_row "A" "drama" "A story" 8.0] = Some ["drama"] ∧
  Py.title "drama" = "Drama" ∧
  genre_answer ["drama"] "drama" = Retry "Invalid input. Try again." ∧
  (∀ stdin,
     ask (genre_answer ["drama"]) ("drama" :: stdin)
     = ask (genre_answer ["drama"]) stdin) ∧
  genre_answer ["drama"] "1" = Accept "drama".
Proof.
  split; [by vm_compute|]. split; [reflexivity|]. split; [reflexivity|].
  split; [|reflexivity]. intros stdin. by eapply ask_retry.
Qed.

(** * More of the program *)

(** ** Loading the data *)

Lemma first_missing_None (columns required : list string) :
  first_missing columns required = None ↔ ∀ col, col ∈ required → col ∈ columns.
Proof.
  induction required as [|col required IH]; simpl.
  { split; [by intros _ ? ?%elem_of_nil|done]. }
  case_bool_decide as Hcol.
  - rewrite IH. split.
    + intros Hall c [->|Hc]%elem_of_cons; auto.
    + intros Hall c Hc. apply Hall. by right.
  - split; [done|]. intros Hall. destruct Hcol. apply Hall. by left.
Qed.

Lemma first_missing_Some (columns required : list string) (col : string) :
  first_missing columns required = Some col ↔
  ∃ before after,
    required = before ++ col :: after ∧
    Forall (λ c, c ∈ columns) before ∧ col ∉ columns.
Proof.
  induction required as [|c required IH]; simpl.
  { split; [done|]. by intros ([|??] & ? & ? & _). }
  case_bool_decide as Hc.
  - rewrite IH. split.
    + intros (before & after & -> & Hall & Hcol).
      exists (c :: before), after. split; [done|]. by split; [constructor|].
    + intros ([|c' before] & after & E & Hall & Hcol); simplify_eq/=; [done|].
      exists before, after. split; [done|]. split; [|done]. by inversion Hall.
  - split.
    + intros [= <-]. by exists [], required.
    + intros ([|c' before] & after & E & Hall & Hcol); simplify_eq/=; [done|].
      by inversion Hall.
Qed.

(** X1.  [load_data] returns a frame exactly when the file exists, is
    read without error, has the four required columns and holds no number
    in its genre and overview columns.  A missing file ends the program
    with the line that names the path; a file that is read and lacks a
    column ends it with the line that names the first required column, in
    the order title, genre, overview, rating, that the file lacks.  An
    error of the reader, and a number in the genre or overview column of a
    file that has the four columns, are exceptions that nothing catches,
    and the only ones. *)
Theorem load_data_exits (files : gmap string Csv) (file_path : string) :
  ((∃ frame, load_data files file_path = Frame frame) ↔
   ∃ df, files !! file_path = Some df ∧ csv_error df = None ∧
         (∀ col, col ∈ required_cols → col ∈ csv_columns df) ∧
         csv_text df = true) ∧
  (files !! file_path = None →
   load_data files file_path
   = Exit ("Error: The file '" +:+ file_path +:+ "' was not found.")) ∧
  (∀ df printed,
     files !! file_path = Some df →
     load_data files file_path = Exit printed →
     csv_error df = None ∧
     ∃ before col after,
       required_cols = before ++ col :: after ∧
       Forall (λ c, c ∈ csv_columns df) before ∧
       (col ∉ csv_columns df) ∧
       printed = "'Missing column in CSV: " +:+ col +:+ "'") ∧
  (∀ exception,
     load_data files file_path = Uncaught exception ↔
     ∃ df, files !! file_path = Some df ∧
       (csv_error df = Some exception ∨
        (csv_error df = None ∧
         (∀ col, col ∈ required_cols → col ∈ csv_columns df) ∧
         csv_text df = false ∧ exception = "TypeError"))).
Proof.
  unfold load_data. split; [|split; [|split]].
  - destruct (files !! file_path) as [df|]; [|by split; [intros [??]|intros (?&?&?)]].
    destruct (csv_error df) as [e|] eqn:Herror.
    { split; [by intros [??]|]. intros (df' & [= <-] & ? & _). congruence. }
    destruct (first_missing _ _) as [col|] eqn:E.
    + split; [by intros [??]|]. intros (df' & [= <-] & _ & Hall & _).
      apply first_missing_None in Hall. congruence.
    + pose proof (proj1 (first_missing_None _ _) E) as Hall.
      destruct (csv_text df) eqn:Htext.
      * split; [|by eauto]. intros _. by exists df.
      * split; [by intros [??]|]. intros (df' & [= <-] & _ & _ & ?). congruence.
  - by intros ->.
  - intros df printed ->. destruct (csv_error df); [done|].
    destruct (first_missing _ _) as [col|] eqn:E; [|by destruct (csv_text df)].
    intros [= <-]. split; [done|].
    apply first_missing_Some in E as (before & after & ? & ? & ?).
    by exists before, col, after.
  - intros exception.
    destruct (files !! file_path) as [df|]; [|by split; [|intros (? & ? & _)]].
    destruct (csv_error df) as [e|] eqn:Herror.
    { split.
      - intros [= <-]. exists df. split; [done|]. by left.
      - intros (df' & [= <-] & [?|[? _]]); congruence. }
    destruct (first_missing _ _) as [col|] eqn:E.
    + split; [done|]. intros (df' & [= <-] & [?|(_ & Hall & _)]); [congruence|].
      apply first_missing_None in Hall. congruence.
    + pose proof (proj1 (first_missing_None _ _) E) as Hall.
      destruct (csv_text df) eqn:Htext.
      * split; [done|]. intros (df' & [= <-] & [?|(_ & _ & ? & _)]); congruence.
      * split.
        -- intros [= <-]. exists df. split; [done|]. by right.
        -- intros (df' & [= <-] & [?|(_ & _ & _ & ->)]); [congruence|done].
Qed.

(** X2.  A frame that [load_data] returns holds the rows of the file in
    their order, each with its combined features: the genre, a blank and
    the overview, a missing cell counting as empty.  So the features are
    never empty and hold the genre and the overview verbatim. *)
Theorem load_data_frame (files : gmap string Csv) (file_path : string)
    (frame : list (Movie * string)) :
  load_data files file_path = Frame frame →
  ∃ df, files !! file_path = Some df ∧
    movies_of frame = csv_rows df ∧
    ∀ row features, (row, features) ∈ frame →
      features = combined_features row ∧ features ≠ "" ∧
      (∀ genre, Genre row = Some genre → occurs_in genre features) ∧
      (∀ overview, Overview row = Some overview → occurs_in overview features) ∧
      (Genre row = None → Overview row = None → features = " ").
Proof.
  unfold load_data. destruct (files !! file_path) as [df|]; [|done].
  destruct (csv_error df); [done|].
  destruct (first_missing _ _); [done|]. destruct (csv_text df); [|done].
  intros [= <-]. exists df.
  split; [done|]. split.
  { unfold movies_of. rewrite <-list_fmap_compose. apply list_fmap_id. }
  intros row features (row' & [= -> ->] & _)%list_elem_of_fmap.
  unfold combined_features, fillna. split; [done|]. split; [|split; [|split]].
  - by destruct (Genre row') as [[|??]|].
  - intros genre ->. by exists "", (" " +:+ default "" (Overview row')).
  - intros overview ->. exists (default "" (Genre row') +:+ " "), "".
    by rewrite app_app, app_empty_r.
  - by intros -> ->.
Qed.

Lemma load_data_frame_witness :
  ∃ df, ({[ "imdb_top_1000.csv" := {| csv_error := None;
                                       csv_columns := required_cols;
                                       csv_text := true;
                                       csv_rows := scenario |} ]} : gmap string Csv)
          !! "imdb_top_1000.csv" = Some df ∧
    movies_of ((λ row, (row, combined_features row)) <$> scenario) = csv_rows df ∧
    ∀ row features,
      (row, features) ∈ (λ row, (row, combined_features row)) <$> scenario →
      features = combined_features row ∧ features ≠ "" ∧
      (∀ genre, Genre row = Some genre → occurs_in genre features) ∧
      (∀ overview, Overview row = Some overview → occurs_in overview features) ∧
      (Genre row = None → Overview row = None → features = " ").
Proof.
  refine (load_data_frame _ "imdb_top_1000.csv" _ _). reflexivity.
Defined.

Example load_data_scenario :
  load_data {[ "films.csv" := {| csv_error := None;
                                 csv_columns := ["Series_Title"; "Overview"; "Year"];
                                 csv_text := true;
                                 csv_rows := [] |} ]} "films.csv"
  = Exit "'Missing column in CSV: Genre'".
Proof. reflexivity. Qed.

Example load_data_empty_file :
  load_data {[ "films.csv" := {| csv_error := Some "EmptyDataError";
                                 csv_columns := []; csv_text := true;
                                 csv_rows := [] |} ]} "films.csv"
  = Uncaught "EmptyDataError".
Proof. reflexivity. Qed.

(** ** The catalog and the genre step *)

(** X3.  The catalog depends on which rows the frame holds, not on their
    order nor on how often a row occurs. *)
Theorem list_genres_rows (df1 df2 : list Movie) :
  (∀ row, row ∈ df1 ↔ row ∈ df2) → list_genres df1 = list_genres df2.
Proof.
  intros Hrows. unfold list_genres.
  rewrite (has_str_rows df1 df2) by done.
  destruct (has_str (Genre <$> df2)); [|done].
  do 3 f_equal. apply set_eq. intros g.
  rewrite !elem_of_list_to_set, !list_elem_of_bind. unfold dropna.
  assert (∀ field, field ∈ omap id (Genre <$> df1) ↔ field ∈ omap id (Genre <$> df2))
    as Hfields.
  { intros field. rewrite !list_elem_of_omap. split.
    - intros (cell & (row & -> & Hrow)%list_elem_of_fmap & Hcell).
      exists (Genre row). split; [|done]. apply list_elem_of_fmap.
      exists row. by rewrite <-Hrows.
    - intros (cell & (row & -> & Hrow)%list_elem_of_fmap & Hcell).
      exists (Genre row). split; [|done]. apply list_elem_of_fmap.
      exists row. by rewrite Hrows. }
  split; intros (pieces & Hg & (field & -> & Hfield)%list_elem_of_fmap);
    exists (Py.split_comma_space field); (split; [done|]);
    apply list_elem_of_fmap; exists field; (split; [done|]); by apply Hfields.
Qed.

Lemma list_genres_rows_witness :
  list_genres [movie_A; movie_B; movie_A] = list_genres [movie_B; movie_A].
Proof.
  refine (list_genres_rows _ _ _). intros row. rewrite !elem_of_cons.
  rewrite !elem_of_nil. tauto.
Defined.

(** X4.  An entry of the catalog that is not empty and holds no
    metacharacter is a genre on which the genre step does not raise; it
    occurs verbatim in the genre field of some row; and every row in whose
    ASCII genre field it occurs passes the genre step.  So on a frame
    whose genre fields are ASCII the entry never narrows the frame to
    nothing. *)
Theorem catalog_genre_keeps_rows `{Library} (df : list Movie)
    (genres : list string) (g : string) :
  list_genres df = Some genres →
  g ∈ genres →
  g ≠ "" →
  regex_plain g = true →
  genre_step_raises (Some g) df = None ∧
  (∃ row field, row ∈ df ∧ Genre row = Some field ∧ occurs_in g field) ∧
  (∀ row field,
     row ∈ df → Genre row = Some field → Py.isascii field = true →
     occurs_in g field →
     row ∈ genre_filter (Some g) df) ∧
  ((∀ row field, row ∈ df → Genre row = Some field → Py.isascii field = true) →
   genre_filter (Some g) df ≠ []).
Proof.
  intros Hsome Hg Hne Hplain.
  assert (Py.truthy g = true) as Ht by by destruct g.
  assert (∃ row field, row ∈ df ∧ Genre row = Some field ∧ occurs_in g field)
    as Hfrom.
  { apply (elem_of_list_genres df genres g Hsome) in Hg
      as (row & field & piece & Hrow & Hfield & Hpiece & ->).
    exists row, field. split; [done|]. split; [done|].
    eapply occurs_in_trans; [apply strip_occurs_in|by apply split_occurs_in]. }
  assert (∀ row field,
            row ∈ df → Genre row = Some field → Py.isascii field = true →
            occurs_in g field → row ∈ genre_filter (Some g) df) as Hkeeps.
  { intros row field Hrow Hfield Hascii (before & after & ->).
    apply elem_of_genre_filter. split; [done|]. simpl. rewrite Ht, Hfield.
    apply str_contains_plain; [done| |done|by exists before, g, after].
    rewrite !isascii_app in Hascii.
    by apply andb_true_iff in Hascii as [_ [? _]%andb_true_iff]. }
  split; [|split; [done|split; [done|]]].
  - unfold genre_step_raises. rewrite Ht, Hplain.
    unfold list_genres in Hsome. by destruct (has_str (Genre <$> df)).
  - intros Hascii. destruct Hfrom as (row & field & Hrow & Hfield & Hoccurs).
    intros Hnil. apply (elem_of_nil row). rewrite <-Hnil.
    eapply Hkeeps; eauto.
Qed.

Lemma catalog_genre_keeps_rows_witness :
  genre_step_raises (H := examples) (Some "Comedy") scenario = None ∧
  (∃ row field, row ∈ scenario ∧ Genre row = Some field ∧ occurs_in "Comedy" field) ∧
  (∀ row field,
     row ∈ scenario → Genre row = Some field → Py.isascii field = true →
     occurs_in "Comedy" field →
     row ∈ genre_filter (H := examples) (Some "Comedy") scenario) ∧
  ((∀ row field, row ∈ scenario → Genre row = Some field → Py.isascii field = true) →
   genre_filter (H := examples) (Some "Comedy") scenario ≠ []).
Proof.
  refine (catalog_genre_keeps_rows (H := examples) scenario ["Comedy"; "Drama"]
            "Comedy" _ _ _ _).
  - by vm_compute.
  - left.
  - discriminate.
  - reflexivity.
Defined.

(** ** More on the reply of [recommend_movies] *)

Lemma List_filter_Permutation {A} (f : A → bool) (l1 l2 : list A) :
  l1 ≡ₚ l2 → List.filter f l1 ≡ₚ List.filter f l2.
Proof.
  induction 1 as [|x l1 l2 _ IH|x y l|l1 l2 l3 _ IH1 _ IH2]; simpl.
  - done.
  - destruct (f x); by rewrite IH.
  - destruct (f x), (f y); try done. apply perm_swap.
  - by rewrite IH1.
Qed.

Section more_replies.
Context `{Library}.
Implicit Types (row : Movie) (rows df shuffled : list Movie).

Lemma filtered_Permutation df1 df2 genre rating :
  df1 ≡ₚ df2 → filtered df1 genre rating ≡ₚ filtered df2 genre rating.
Proof.
  intros Hperm. unfold filtered, rating_filter, genre_filter.
  destruct genre as [g|]; [destruct (Py.truthy g)|];
    (destruct rating as [r|]; [destruct (float_truthy r)|]);
    repeat apply List_filter_Permutation; done.
Qed.

Lemma genre_step_raises_Permutation df1 df2 genre :
  df1 ≡ₚ df2 → genre_step_raises genre df1 = genre_step_raises genre df2.
Proof.
  intros Hperm. unfold genre_step_raises.
  rewrite (has_str_rows df1 df2); [done|]. intros row. by rewrite Hperm.
Qed.

Lemma hits_Permutation mp rows1 rows2 :
  rows1 ≡ₚ rows2 → hits mp rows1 ≡ₚ hits mp rows2.
Proof. intros Hperm. unfold hits. by rewrite Hperm. Qed.

(** Nothing passes the filters: the reply is the message. *)
Lemma nothing_filtered df genre mood rating top_n out :
  filtered df genre rating = [] →
  recommend_movies df genre mood rating top_n out →
  out = Message nothing_found.
Proof.
  intros Hnil (_ & shuffled & Hperm & ->). rewrite Hnil in Hperm.
  by apply Permutation_nil_r in Hperm as ->.
Qed.

Lemma collect_no_hit mp top_n rows :
  hits mp rows = [] → collect mp top_n rows [] = [].
Proof.
  intros Hnil. destruct (collect_cases mp top_n rows []) as [E|[_ [k E]]];
    rewrite E, Hnil; simpl; [done|by rewrite take_nil].
Qed.

(** Below zero the length test never holds. *)
Lemma collect_negative mp top_n rows acc :
  (top_n < 0)%Z → collect mp top_n rows acc = acc ++ hits mp rows.
Proof.
  intros Hn. destruct (collect_cases mp top_n rows acc) as [E|[Hstop _]]; [done|lia].
Qed.

(** At zero the loop stops at once with nothing, or never stops. *)
Lemma collect_zero mp rows :
  collect mp 0 rows [] = [] ∨ collect mp 0 rows [] = hits mp rows.
Proof.
  destruct (collect_cases mp 0 rows []) as [E|[Hstop _]]; [by right|left].
  by destruct (collect mp 0 rows []).
Qed.

End more_replies.

(** X5.  The order of the rows in the data frame does not matter: two
    frames that hold the same rows, each as often, allow the same replies
    to every call. *)
Theorem recommend_movies_row_order `{Library} (df1 df2 : list Movie)
    (genre mood : option string) (rating : option float) (top_n : Z) (out : reply) :
  df1 ≡ₚ df2 →
  recommend_movies df1 genre mood rating top_n out ↔
  recommend_movies df2 genre mood rating top_n out.
Proof.
  intros Hperm.
  pose proof (filtered_Permutation df1 df2 genre rating Hperm) as Hf.
  pose proof (genre_step_raises_Permutation df1 df2 genre Hperm) as Hg.
  split; intros (Hok & shuffled & Hs & ->); (split; [congruence|]);
    exists shuffled; split; try done.
  - by rewrite Hs.
  - by rewrite Hs, Hf.
Qed.

Lemma recommend_movies_row_order_witness :
  recommend_movies (H := examples) [movie_A; movie_N] None None None 1
    (Recommendations [("N", 0%float)]) ↔
  recommend_movies (H := examples) [movie_N; movie_A] None None None 1
    (Recommendations [("N", 0%float)]).
Proof.
  refine (recommend_movies_row_order (H := examples) _ _ None None None 1 _ _).
  apply perm_swap.
Defined.

(** X6.  With a limit of one or more, how many pairs are returned does not
    depend on the shuffle: it is the smaller of the limit and the number
    of rows that pass the filters, have an overview and pass the mood
    test. *)
Theorem reply_length `{Library} (df : list Movie)
    (genre mood : option string) (rating : option float) (top_n : Z) (out : reply) :
  recommend_movies df genre mood rating top_n out →
  (1 ≤ top_n)%Z →
  length (recommendations_of out)
  = Z.to_nat top_n
    `min` length (hits (mood_polarity_of mood) (filtered df genre rating)).
Proof.
  intros (_ & shuffled & Hperm & ->) Hn.
  rewrite recommendations_of_recommend_from, collect_below by (simpl; lia).
  simpl. rewrite Nat.sub_0_r, length_take.
  by rewrite (hits_Permutation _ _ _ Hperm).
Qed.

Lemma reply_length_witness :
  length (recommendations_of (Recommendations [("B", 0.8%float)]))
  = Z.to_nat 1
    `min` length (hits (H := examples) (mood_polarity_of (H := examples) None)
                    (filtered (H := examples) scenario None None)).
Proof.
  refine (reply_length (H := examples) scenario None None None 1
            (Recommendations [("B", 0.8%float)]) _ _).
  - split; [reflexivity|]. exists [movie_C; movie_B; movie_A]. split; [|reflexivity].
    vm_compute. apply Permutation_rev.
  - lia.
Defined.

(** X7.  A limit of zero or less never cuts the list: below zero every
    hit is returned, and at zero the reply holds every hit or is the
    message. *)
Theorem limit_not_positive `{Library} (df : list Movie)
    (genre mood : option string) (rating : option float) (top_n : Z) (out : reply) :
  recommend_movies df genre mood rating top_n out →
  (top_n ≤ 0)%Z →
  (top_n = 0%Z ∧ out = Message nothing_found) ∨
  recommendations_of out
  ≡ₚ hits (mood_polarity_of mood) (filtered df genre rating).
Proof.
  intros (_ & shuffled & Hperm & ->) Hn.
  destruct (decide (top_n = 0%Z)) as [->|Hne].
  - destruct (collect_zero (mood_polarity_of mood) shuffled) as [E|E].
    + left. split; [done|]. by apply recommend_from_message.
    + right. rewrite recommendations_of_recommend_from, E.
      by apply hits_Permutation.
  - right. rewrite recommendations_of_recommend_from, collect_negative by lia.
    by apply hits_Permutation.
Qed.

Lemma limit_not_positive_witness :
  (((-3)%Z = 0%Z ∧ Recommendations [("A", (-0.5)%float); ("B", 0.8%float)]
                   = Message nothing_found) ∨
   recommendations_of (Recommendations [("A", (-0.5)%float); ("B", 0.8%float)])
   ≡ₚ hits (H := examples) (mood_polarity_of (H := examples) None)
        (filtered (H := examples) scenario None None)).
Proof.
  refine (limit_not_positive (H := examples) scenario None None None (-3)
            (Recommendations [("A", (-0.5)%float); ("B", 0.8%float)]) _ _).
  - split; [reflexivity|]. exists scenario. split; [done|]. vm_compute. reflexivity.
  - lia.
Defined.

(** X8.  When a rating other than zero is asked and no row reaches it, the
    reply is the message, whatever the genre, the mood and the limit. *)
Theorem unmet_rating_message `{Library} (df : list Movie)
    (genre mood : option string) (r : float) (top_n : Z) (out : reply) :
  float_truthy r = true →
  (∀ row, row ∈ df → PrimFloat.leb r (IMDB_Rating row) = false) →
  recommend_movies df genre mood (Some r) top_n out →
  out = Message nothing_found.
Proof.
  intros Hr Hnone. apply nothing_filtered.
  destruct (filtered df genre (Some r)) as [|row rows] eqn:E; [done|].
  assert (row ∈ filtered df genre (Some r)) as Hrow by (rewrite E; left).
  apply elem_of_filtered in Hrow as (Hrow & _ & Hkeep). simpl in Hkeep.
  rewrite Hr, (Hnone row Hrow) in Hkeep. done.
Qed.

Lemma unmet_rating_message_witness :
  Message nothing_found = Message nothing_found.
Proof.
  refine (unmet_rating_message (H := examples) scenario (Some "Drama") None
            9.5%float 0 (Message nothing_found) _ _ _).
  - reflexivity.
  - intros row Hrow.
    repeat (apply elem_of_cons in Hrow as [->|Hrow]); [..|by apply elem_of_nil in Hrow];
      reflexivity.
  - split; [reflexivity|]. exists []. split; [|reflexivity]. vm_compute. reflexivity.
Defined.

(** X9.  When no row of the frame has an overview the reply is the
    message, whatever the constraints and the limit. *)
Theorem no_overview_message `{Library} (df : list Movie)
    (genre mood : option string) (rating : option float) (top_n : Z) (out : reply) :
  (∀ row, row ∈ df → Overview row = None) →
  recommend_movies df genre mood rating top_n out →
  out = Message nothing_found.
Proof.
  intros Hnone (_ & shuffled & Hperm & ->). apply recommend_from_message.
  apply collect_no_hit, hits_nil_iff. intros row Hrow.
  rewrite Hperm in Hrow. apply elem_of_filtered in Hrow as (Hrow & _).
  unfold hit. by rewrite (Hnone row Hrow).
Qed.

Lemma no_overview_message_witness :
  Message nothing_found = Message nothing_found.
Proof.
  refine (no_overview_message (H := examples) [movie_C] None None None 5
            (Message nothing_found) _ _).
  - intros row Hrow. apply elem_of_cons in Hrow as [->|Hrow]; [reflexivity|].
    by apply elem_of_nil in Hrow.
  - split; [reflexivity|]. exists [movie_C]. split; [done|]. reflexivity.
Defined.

(** ** NaN and the rating step *)

Lemma SFcompare_refl_finite s m e :
  SFcompare (S754_finite s m e) (S754_finite s m e) = Some Eq.
Proof.
  simpl. rewrite Z.compare_refl, Pos.compare_cont_refl. by destruct s.
Qed.

Lemma is_nan_inv (x : float) : PrimFloat.is_nan x = true → Prim2SF x = S754_nan.
Proof.
  unfold PrimFloat.is_nan. rewrite FloatAxioms.eqb_spec. unfold SFeqb.
  destruct (Prim2SF x) as [s|s| |s m e]; try done.
  - by destruct s.
  - by rewrite SFcompare_refl_finite.
Qed.

Lemma nan_leb_l (x y : float) : PrimFloat.is_nan x = true → PrimFloat.leb x y = false.
Proof. intros Hx%is_nan_inv. by rewrite FloatAxioms.leb_spec, Hx. Qed.

Lemma nan_leb_r (x y : float) : PrimFloat.is_nan y = true → PrimFloat.leb x y = false.
Proof.
  intros Hy%is_nan_inv. rewrite FloatAxioms.leb_spec, Hy.
  by destruct (Prim2SF x).
Qed.

Lemma nan_truthy (x : float) : PrimFloat.is_nan x = true → float_truthy x = true.
Proof.
  intros Hx%is_nan_inv. unfold float_truthy.
  by rewrite FloatAxioms.eqb_spec, Hx.
Qed.

(** X10.  NaN never passes the rating step: a minimum rating that is NaN
    leaves no row, so the reply is the message, and a row whose rating is
    NaN is left out by every minimum rating other than zero. *)
Theorem nan_fails_rating_step `{Library} (df : list Movie)
    (genre mood : option string) (r : float) (top_n : Z) (out : reply) :
  recommend_movies df genre mood (Some r) top_n out →
  (PrimFloat.is_nan r = true → out = Message nothing_found) ∧
  (float_truthy r = true →
   ∀ e, e ∈ recommendations_of out →
     ∃ row overview,
       row ∈ df ∧ Overview row = Some overview ∧ e = entry row overview ∧
       PrimFloat.is_nan (IMDB_Rating row) = false).
Proof.
  intros Hout. split.
  - intros Hnan. apply (nothing_filtered df genre mood (Some r) top_n); [|done].
    destruct (filtered df genre (Some r)) as [|row rows] eqn:E; [done|].
    assert (row ∈ filtered df genre (Some r)) as Hrow by (rewrite E; left).
    apply elem_of_filtered in Hrow as (_ & _ & Hkeep). simpl in Hkeep.
    by rewrite nan_truthy, nan_leb_l in Hkeep.
  - intros Hr e (row & ov & Hrow & Hov & _ & ->)%(elem_of_reply _ _ _ _ _ _ _ Hout).
    apply elem_of_filtered in Hrow as (Hrow & _ & Hkeep). simpl in Hkeep.
    rewrite Hr in Hkeep. exists row, ov. split; [done|]. split; [done|].
    split; [done|].
    destruct (PrimFloat.is_nan (IMDB_Rating row)) eqn:Hnan; [|done].
    by rewrite nan_leb_r in Hkeep.
Qed.

Lemma nan_fails_rating_step_witness :
  (PrimFloat.is_nan nan = true → Message nothing_found = Message nothing_found) ∧
  (float_truthy nan = true →
   ∀ e, e ∈ recommendations_of (Message nothing_found) →
     ∃ row overview,
       row ∈ scenario ∧ Overview row = Some overview ∧
       e = entry (H := examples) row overview ∧
       PrimFloat.is_nan (IMDB_Rating row) = false).
Proof.
  refine (nan_fails_rating_step (H := examples) scenario None None nan 5
            (Message nothing_found) _).
  split; [reflexivity|]. exists []. split; [|reflexivity]. vm_compute. reflexivity.
Defined.

(** ** The session *)

Lemma in_range_truthy (r : float) : rating_in_range r = true → float_truthy r = true.
Proof.
  unfold rating_in_range, float_truthy.
  intros [Hlo _]%andb_true_iff.
  destruct (PrimFloat.eqb r 0) eqn:Hzero; [|done].
  apply eqb_zero_inv in Hzero as [s Hs].
  rewrite FloatAxioms.leb_spec, Hs in Hlo. by vm_compute in Hlo.
Qed.


(** X11.  All the calls of a session carry the same arguments: the genre
    is an entry of the catalog, the mood is trimmed, the limit is five,
    and a rating, when there is one, is not zero, so the rating step is
    applied. *)
Theorem session_calls `{Library} (genres stdin : list string) (c c' : call) :
  c ∈ main genres stdin →
  c' ∈ main genres stdin →
  c = c' ∧
  call_genre c ∈ genres ∧
  Py.strip (call_mood c) = call_mood c ∧
  call_top_n c = 5%Z ∧
  (∀ r, call_rating c = Some r → float_truthy r = true).
Proof.
  destruct stdin as [|name stdin]; simpl; [by intros ?%elem_of_nil|].
  unfold handle_ai.
  destruct (ask (genre_answer genres) stdin) as [[genre [|mood stdin1]]|] eqn:Hgenre;
    try by intros ?%elem_of_nil.
  destruct (ask rating_answer stdin1) as [[rating stdin2]|] eqn:Hrating;
    [|by intros ?%elem_of_nil].
  set (this := {| call_genre := genre; call_mood := Py.strip mood;
                  call_rating := rating; call_top_n := 5 |}).
  assert (∀ x, x ∈ this :: more_calls this stdin2 → x = this) as Hthis.
  { intros x [->|Hx]%elem_of_cons; [done|]. by eapply elem_of_more_calls. }
  intros ->%Hthis ->%Hthis. split; [done|]. simpl.
  split; [|split; [apply strip_strip|split; [done|]]].
  - apply ask_Some in Hgenre as (_ & line & _ & _ & Hline).
    by eapply genre_answer_elem.
  - intros r ->. apply ask_Some in Hrating as (_ & line & _ & _ & Hline).
    apply rating_answer_float in Hline as (_ & _ & Hlo & Hhi).
    apply in_range_truthy. unfold rating_in_range. by rewrite Hlo, Hhi.
Qed.

Lemma session_calls_witness :
  {| call_genre := "Drama"; call_mood := "sad";
     call_rating := Some 8%float; call_top_n := 5 |}
  = {| call_genre := "Drama"; call_mood := "sad";
       call_rating := Some 8%float; call_top_n := 5 |} ∧
  "Drama" ∈ ["Comedy"; "Drama"] ∧
  Py.strip "sad" = "sad" ∧
  5%Z = 5%Z ∧
  (∀ r, Some 8%float = Some r → float_truthy r = true).
Proof.
  refine (session_calls (H := examples) ["Comedy"; "Drama"]
            ["Ann"; "2"; " sad "; "8"; "yes"; "no"]
            {| call_genre := "Drama"; call_mood := "sad";
               call_rating := Some 8%float; call_top_n := 5 |}
            {| call_genre := "Drama"; call_mood := "sad";
               call_rating := Some 8%float; call_top_n := 5 |} _ _).
  - vm_compute. left.
  - vm_compute. right. left.
Defined.



(** What every call of a session looks like. *)
Lemma main_call `{Library} (genres stdin : list string) (c : call) :
  c ∈ main genres stdin →
  call_genre c ∈ genres ∧
  call_top_n c = 5%Z ∧
  (∀ r, call_rating c = Some r →
        float_truthy r = true ∧ rating_in_range r = true).
Proof.
  destruct stdin as [|name stdin]; simpl; [by intros ?%elem_of_nil|].
  intros Hc. destruct (handle_ai_call genres stdin c Hc) as [Hn Hg].
  split; [done|]. split; [done|]. intros r Hr.
  revert Hc. unfold handle_ai.
  destruct (ask (genre_answer genres) stdin) as [[genre [|mood stdin1]]|];
    try by intros ?%elem_of_nil.
  destruct (ask rating_answer stdin1) as [[rating stdin2]|] eqn:Hrating;
    [|by intros ?%elem_of_nil].
  intros Hc.
  assert (c = {| call_genre := genre; call_mood := Py.strip mood;
                 call_rating := rating; call_top_n := 5 |}) as ->.
  { apply elem_of_cons in Hc as [->|Hc]; [done|]. by eapply elem_of_more_calls. }
  simpl in Hr. subst rating.
  apply ask_Some in Hrating as (_ & line & _ & _ & Hline).
  apply rating_answer_float in Hline as (_ & _ & Hlo & Hhi).
  assert (rating_in_range r = true) as Hin.
  { unfold rating_in_range. by rewrite Hlo, Hhi. }
  split; [by apply in_range_truthy|done].
Qed.

(** X13.  The reply to a call of a session is the message or a list of one
    to five pairs; each pair is that of a row of the frame with an
    overview, and when the session has a minimum rating the row reaches
    it. *)
Theorem session_reply `{Library} (df : list Movie) (genres stdin : list string)
    (c : call) (out : reply) :
  c ∈ main genres stdin →
  reply_to df c out →
  (out = Message nothing_found ∨
   ∃ recs, out = Recommendations recs ∧ 1 ≤ length recs ≤ 5) ∧
  (∀ e, e ∈ recommendations_of out →
     ∃ row overview,
       row ∈ df ∧ Overview row = Some overview ∧ e = entry row overview ∧
       ∀ r, call_rating c = Some r → PrimFloat.leb r (IMDB_Rating row) = true).
Proof.
  intros (Hg & Hn & Hr)%main_call Hout. unfold reply_to in Hout. split.
  - pose proof Hout as (_ & shuffled & Hperm & Hreply). rewrite Hn in Hreply.
    destruct out as [recs|text]; [right|left].
    + exists recs. split; [done|]. symmetry in Hreply.
      apply recommend_from_recommendations in Hreply as [Hne Hrecs].
      rewrite collect_below in Hrecs by (simpl; lia). simpl in Hrecs.
      split; [by destruct recs; simpl; [|lia]|].
      rewrite <-Hrecs, length_take. lia.
    + unfold recommend_from in Hreply. by destruct (collect _ _ _ _).
  - intros e (row & ov & Hrow & Hov & _ & ->)%(elem_of_reply _ _ _ _ _ _ _ Hout).
    apply elem_of_filtered in Hrow as (Hrow & _ & Hkeep).
    exists row, ov. split; [done|]. split; [done|]. split; [done|].
    intros r Hrating. rewrite Hrating in Hkeep. simpl in Hkeep.
    by rewrite (proj1 (Hr r Hrating)) in Hkeep.
Qed.

Lemma session_reply_witness :
  (Recommendations [("A", (-0.5)%float)] = Message nothing_found ∨
   ∃ recs, Recommendations [("A", (-0.5)%float)] = Recommendations recs ∧
           1 ≤ length recs ≤ 5) ∧
  (∀ e, e ∈ recommendations_of (Recommendations [("A", (-0.5)%float)]) →
     ∃ row overview,
       row ∈ scenario ∧ Overview row = Some overview ∧
       e = entry (H := examples) row overview ∧
       ∀ r, Some 8%float = Some r → PrimFloat.leb r (IMDB_Rating row) = true).
Proof.
  refine (session_reply (H := examples) scenario ["Comedy"; "Drama"]
            ["Ann"; "2"; " sad "; "8"; "no"]
            {| call_genre := "Drama"; call_mood := "sad";
               call_rating := Some 8%float; call_top_n := 5 |}
            (Recommendations [("A", (-0.5)%float)]) _ _).
  - vm_compute. left.
  - split; [reflexivity|]. exists [movie_A; movie_C]. split; [|reflexivity]. vm_compute. reflexivity.
Defined.

(** ** What is shown *)

Lemma ltb_zero_asym (p : float) :
  PrimFloat.ltb p 0 = true → PrimFloat.ltb 0 p = false.
Proof.
  rewrite !FloatAxioms.ltb_spec. change (Prim2SF 0) with (S754_zero false).
  destruct (Prim2SF p) as [s|s| |s m e]; try done; by destruct s.
Qed.

Lemma eqb_zero_not_ltb (p : float) :
  PrimFloat.eqb p 0 = true → PrimFloat.ltb 0 p = false ∧ PrimFloat.ltb p 0 = false.
Proof.
  intros [s Hs]%eqb_zero_inv. rewrite !FloatAxioms.ltb_spec, Hs. done.
Qed.

(** X14.  With a mood text that is not empty, every pair returned is shown
    as neutral or with the sentiment shown for the mood: a positive mood
    never brings a film shown as negative, nor a negative mood one shown
    as positive, and a mood shown as neutral brings neutral films only. *)
Theorem shown_sentiment_agrees `{Library} (df : list Movie) (genre : option string)
    (mood : string) (rating : option float) (top_n : Z) (out : reply)
    (title : string) (p : float) :
  mood ≠ "" →
  recommend_movies df genre (Some mood) rating top_n out →
  (title, p) ∈ recommendations_of out →
  sentiment p = "Neutral 😐" ∨
  (sentiment p = "Positive 😊" ∧ mood_desc mood = "positive 😊") ∨
  (sentiment p = "Negative 😞" ∧ mood_desc mood = "negative 😞").
Proof.
  intros Hmood Hout (row & ov & _ & _ & Hmatch & He)%(elem_of_reply _ _ _ _ _ _ _ Hout).
  injection He as _ ->.
  assert (Py.truthy mood = true) as Ht by by destruct mood.
  simpl in Hmatch. rewrite Ht in Hmatch. unfold sentiment, mood_desc. rewrite Ht.
  apply orb_true_iff in Hmatch as [Hpos|Hzero].
  - apply positive_product_same_sign in Hpos as [[Hm Hp]|[Hm Hp]].
    + right. left. by rewrite Hm, Hp.
    + right. right. by rewrite (ltb_zero_asym _ Hm), (ltb_zero_asym _ Hp), Hm, Hp.
  - left. by destruct (eqb_zero_not_ltb _ Hzero) as [-> ->].
Qed.

Lemma shown_sentiment_agrees_witness :
  sentiment 0.8 = "Neutral 😐" ∨
  (sentiment 0.8 = "Positive 😊"
   ∧ mood_desc (H := examples) "glad and happy" = "positive 😊") ∨
  (sentiment 0.8 = "Negative 😞"
   ∧ mood_desc (H := examples) "glad and happy" = "negative 😞").
Proof.
  refine (shown_sentiment_agrees (H := examples) scenario None "glad and happy"
            None 5 (Recommendations [("B", 0.8%float)]) "B" 0.8%float _ _ _).
  - discriminate.
  - split; [reflexivity|]. exists scenario. split; [done|]. vm_compute. reflexivity.
  - left.
Defined.

(** X15.  For a call with a limit of one or more, what is printed for the
    reply is the line of the message, or a heading followed by one line
    for each pair, at least one and at most the limit, the line at place
    [i + 1] carrying that number, the title and the sentiment of the pair
    at index [i]. *)
Theorem shown_lines `{Library} (format_2f : float → string) (df : list Movie)
    (genre mood : option string) (rating : option float) (top_n : Z)
    (out : reply) (name : string) :
  recommend_movies df genre mood rating top_n out →
  (1 ≤ top_n)%Z →
  show format_2f out name = [nothing_found +:+ String "010" ""] ∨
  ∃ heading lines,
    show format_2f out name = heading :: lines ∧
    length lines = length (recommendations_of out) ∧
    (1 ≤ Z.of_nat (length lines) ≤ top_n)%Z ∧
    ∀ i title p,
      recommendations_of out !! i = Some (title, p) →
      lines !! i
      = Some (pretty (S i) +:+ ". 🎥 " +:+ title +:+ " (Polarity: "
              +:+ format_2f p +:+ ", " +:+ sentiment p +:+ ")").
Proof.
  intros (_ & shuffled & Hperm & ->) Hn. unfold recommend_from.
  destruct (collect _ _ _ _) as [|rec recs] eqn:Hrecs; [by left|right].
  rewrite collect_below in Hrecs by (simpl; lia). simpl in Hrecs.
  unfold show, display_recommendations, recommendations_of.
  eexists _, _. split; [reflexivity|].
  split; [by rewrite length_imap|]. split.
  - rewrite length_imap.
    assert (length (rec :: recs) ≤ Z.to_nat top_n) as Hlen.
    { rewrite <-Hrecs, length_take. lia. }
    simpl in *. lia.
  - intros i title p Hi. by rewrite list_lookup_imap, Hi.
Qed.

Lemma shown_lines_witness :
  show (λ _, "-0.50") (Recommendations [("A", (-0.5)%float)]) "Ann"
  = [nothing_found +:+ String "010" ""] ∨
  ∃ heading lines,
    show (λ _, "-0.50") (Recommendations [("A", (-0.5)%float)]) "Ann"
    = heading :: lines ∧
    length lines = length (recommendations_of (Recommendations [("A", (-0.5)%float)])) ∧
    (1 ≤ Z.of_nat (length lines) ≤ 5)%Z ∧
    ∀ i title p,
      recommendations_of (Recommendations [("A", (-0.5)%float)]) !! i
      = Some (title, p) →
      lines !! i
      = Some (pretty (S i) +:+ ". 🎥 " +:+ title +:+ " (Polarity: "
              +:+ (λ _ : float, "-0.50") p +:+ ", " +:+ sentiment p +:+ ")").
Proof.
  refine (shown_lines (H := examples) (λ _, "-0.50") scenario (Some "Drama") None
            (Some 7.6%float) 5 (Recommendations [("A", (-0.5)%float)]) "Ann" _ _).
  - split; [reflexivity|]. exists [movie_A; movie_C]. split; [|reflexivity]. vm_compute. reflexivity.
  - lia.
Defined.

(** ** The numbers of the menu *)

Lemma pretty_N_char_digit (d : N) :
  (d < 10)%N →
  Py.isdigit_char (pretty_N_char d) = true ∧
  Z.of_N (Py.code (pretty_N_char d) - 48) = Z.of_N d.
Proof.
  intros Hd.
  assert (d = 0 ∨ d = 1 ∨ d = 2 ∨ d = 3 ∨ d = 4 ∨ d = 5 ∨ d = 6 ∨ d = 7
          ∨ d = 8 ∨ d = 9)%N as Hcases by lia.
  repeat (destruct Hcases as [->|Hcases]; [done|]). by subst.
Qed.

(** Reading the digits of a number gives the number back. *)
Lemma int_from_pretty_N_go (x : N) (s : string) :
  Py.int_from 0 (pretty_N_go x s) = Py.int_from (Z.of_N x) s.
Proof.
  revert s. induction (N.lt_wf_0 x) as [x _ IH]; intros s.
  destruct (decide (0 < x)%N) as [Hx|Hx].
  - rewrite pretty_N_go_step by done. rewrite IH by (apply N.div_lt; lia).
    simpl. f_equal.
    destruct (pretty_N_char_digit (x `mod` 10)) as [_ ->].
    { apply N.mod_lt. lia. }
    rewrite (N.div_mod x 10) at 3 by lia. lia.
  - assert (x = 0%N) as -> by lia. by rewrite pretty_N_go_0.
Qed.

Lemma all_digits_pretty_N_go (x : N) (s : string) :
  Py.all_digits (pretty_N_go x s) = Py.all_digits s.
Proof.
  revert s. induction (N.lt_wf_0 x) as [x _ IH]; intros s.
  destruct (decide (0 < x)%N) as [Hx|Hx].
  - rewrite pretty_N_go_step by done. rewrite IH by (apply N.div_lt; lia).
    simpl. destruct (pretty_N_char_digit (x `mod` 10)) as [-> _]; [|done].
    apply N.mod_lt. lia.
  - assert (x = 0%N) as -> by lia. by rewrite pretty_N_go_0.
Qed.

Lemma pretty_N_go_not_empty (x : N) (s : string) :
  s ≠ "" → pretty_N_go x s ≠ "".
Proof.
  revert s. induction (N.lt_wf_0 x) as [x _ IH]; intros s Hs.
  destruct (decide (0 < x)%N) as [Hx|Hx].
  - rewrite pretty_N_go_step by done. apply IH; [apply N.div_lt; lia|done].
  - assert (x = 0%N) as -> by lia. by rewrite pretty_N_go_0.
Qed.

Lemma all_digits_app (s t : string) :
  Py.all_digits (s +:+ t) = Py.all_digits s && Py.all_digits t.
Proof.
  induction s as [|c s IH]; [done|]. rewrite app_String. simpl.
  by rewrite IH, andb_assoc.
Qed.

Lemma white_space_no_digits (space : string) :
  space ∈ white_space → Py.all_digits space = false.
Proof.
  revert space. apply Forall_forall. apply (bool_decide_unpack _). by vm_compute.
Qed.

Lemma digit_ascii c : Py.isdigit_char c = true → (Py.code c <? 128)%N = true.
Proof. destruct c as [[] [] [] [] [] [] [] []]; done. Qed.

Lemma all_digits_isascii (s : string) : Py.all_digits s = true → Py.isascii s = true.
Proof.
  induction s as [|c s IH]; [done|]. simpl.
  intros [Hc%digit_ascii Hs]%andb_true_iff. by rewrite Hc, IH.
Qed.

(** A text of digits has nothing to trim. *)
Lemma strip_digits (s : string) : Py.all_digits s = true → Py.strip s = s.
Proof.
  intros Hs. symmetry. apply trim_of_strip. exists "", "".
  rewrite app_empty_l, app_empty_r. split; [done|].
  split; [constructor|]. split; [constructor|].
  intros space rest Hspace%white_space_no_digits.
  split; intros ->; rewrite all_digits_app, Hspace in Hs;
    by rewrite ?andb_false_r in Hs.
Qed.

Lemma pretty_S_digits (i : nat) :
  Py.isdigit (pretty (S i)) = true ∧
  Py.strip (pretty (S i)) = pretty (S i) ∧
  Py.int (pretty (S i)) = Z.of_nat (S i).
Proof.
  unfold pretty, pretty_nat, pretty, pretty_N.
  rewrite decide_False by lia.
  assert (Py.all_digits (pretty_N_go (N.of_nat (S i)) "") = true) as Hall.
  { by rewrite all_digits_pretty_N_go. }
  split; [|split].
  - rewrite pretty_N_go_step by lia.
    pose proof (pretty_N_go_not_empty (N.of_nat (S i) `div` 10)
                  (String (pretty_N_char (N.of_nat (S i) `mod` 10)) "")) as Hne.
    rewrite pretty_N_go_step in Hall by lia.
    destruct (pretty_N_go _ _); [by destruct Hne|done].
  - by apply strip_digits.
  - unfold Py.int. rewrite int_from_pretty_N_go. simpl. lia.
Qed.

(** X16.  The number the menu shows beside a genre selects that genre at
    the genre prompt. *)
Theorem menu_number_selects (genres : list string) (i : nat) (genre : string) :
  genres !! i = Some genre →
  genre_menu genres !! i = Some (pretty (S i) +:+ ". " +:+ genre) ∧
  genre_answer genres (pretty (S i)) = Accept genre.
Proof.
  intros Hi. split.
  { unfold genre_menu. by rewrite list_lookup_imap, Hi. }
  destruct (pretty_S_digits i) as (Hdigit & Hstrip & Hint).
  unfold genre_answer. rewrite Hstrip, Hdigit, Hint.
  rewrite all_digits_isascii by (by destruct (pretty (S i))). simpl.
  apply lookup_lt_Some in Hi as Hlt.
  rewrite bool_decide_eq_true_2 by lia.
  replace (Z.to_nat (Z.of_nat (S i) - 1)) with i by lia.
  by rewrite Hi.
Qed.

Lemma menu_number_selects_witness :
  genre_menu ["Comedy"; "Drama"] !! 1 = Some (pretty 2 +:+ ". " +:+ "Drama") ∧
  genre_answer ["Comedy"; "Drama"] (pretty 2) = Accept "Drama".
Proof.
  refine (menu_number_selects ["Comedy"; "Drama"] 1 "Drama" _). reflexivity.
Defined.

Example genre_menu_scenario :
  genre_menu ["Comedy"; "Drama"] = ["1. Comedy"; "2. Drama"].
Proof. vm_compute. reflexivity. Qed.
(** ** Names at the genre prompt *)

Lemma lower_char_lower_char c : Py.lower_char (Py.lower_char c) = Py.lower_char c.
Proof. each_char c. Qed.

Lemma upper_char_lower_char c : Py.upper_char (Py.lower_char c) = Py.upper_char c.
Proof. each_char c. Qed.

Lemma lower_char_upper_char c : Py.lower_char (Py.upper_char c) = Py.lower_char c.
Proof. each_char c. Qed.

Lemma iscased_lower_char c : Py.iscased (Py.lower_char c) = Py.iscased c.
Proof. each_char c. Qed.

Lemma isdigit_lower_char c : Py.isdigit_char (Py.lower_char c) = Py.isdigit_char c.
Proof. each_char c. Qed.

Lemma digit_lower_char c : Py.isdigit_char c = true → Py.lower_char c = c.
Proof. destruct c as [[] [] [] [] [] [] [] []]; done. Qed.

Lemma ascii_lower_char c :
  (Py.code c <? 128)%N = true → (Py.code (Py.lower_char c) <? 128)%N = true.
Proof. destruct c as [[] [] [] [] [] [] [] []]; done. Qed.

Lemma ascii_upper_char c :
  (Py.code c <? 128)%N = true → (Py.code (Py.upper_char c) <? 128)%N = true.
Proof. destruct c as [[] [] [] [] [] [] [] []]; done. Qed.

Section letter_case.
Implicit Types s t : string.

Lemma isascii_lower s : Py.isascii s = true → Py.isascii (Py.lower s) = true.
Proof.
  induction s as [|c s IH]; [done|]. intros Hcs. simpl in Hcs.
  apply andb_true_iff in Hcs as [Hc Hs]. rewrite lower_String by done. simpl.
  by rewrite ascii_lower_char, IH.
Qed.

Lemma title_from_lower b s :
  Py.isascii s = true → Py.title_from b (Py.lower s) = Py.title_from b s.
Proof.
  revert b. induction s as [|c s IH]; intros b; [done|]. intros Hcs. simpl in Hcs.
  apply andb_true_iff in Hcs as [Hc Hs]. rewrite lower_String by done. simpl.
  by rewrite IH, lower_char_lower_char, upper_char_lower_char, iscased_lower_char.
Qed.

Lemma title_same_case s t :
  Py.isascii s = true → Py.isascii t = true →
  Py.lower s = Py.lower t → Py.title s = Py.title t.
Proof.
  intros Hs Ht E. unfold Py.title.
  by rewrite <-(title_from_lower _ s), E, title_from_lower.
Qed.

Lemma isascii_title_from b s :
  Py.isascii s = true → Py.isascii (Py.title_from b s) = true.
Proof.
  revert b. induction s as [|c s IH]; intros b; [done|]. simpl.
  intros [Hc Hs]%andb_true_iff. rewrite IH by done.
  by destruct b; rewrite ?ascii_lower_char, ?ascii_upper_char.
Qed.

(** Title case changes the case of letters only. *)
Lemma lower_title_from b s :
  Py.isascii s = true → Py.lower (Py.title_from b s) = Py.lower s.
Proof.
  revert b. induction s as [|c s IH]; intros b; [done|]. intros Hcs. simpl in Hcs.
  apply andb_true_iff in Hcs as [Hc Hs].
  change (Py.title_from b (String c s)) with
    (String (if b then Py.lower_char c else Py.upper_char c)
            (Py.title_from (Py.iscased c) s)).
  rewrite (lower_String c s) by done. rewrite lower_String, IH by
    (done || by destruct b; rewrite ?ascii_lower_char, ?ascii_upper_char).
  by destruct b; rewrite ?lower_char_lower_char, ?lower_char_upper_char.
Qed.

Lemma all_digits_lower_id s : Py.all_digits s = true → Py.lower s = s.
Proof.
  induction s as [|c s IH]; [done|]. intros Hcs. simpl in Hcs.
  apply andb_true_iff in Hcs as [Hc Hs].
  rewrite lower_String by by apply digit_ascii.
  by rewrite IH, digit_lower_char.
Qed.

Lemma all_digits_lower s :
  Py.isascii s = true → Py.all_digits (Py.lower s) = Py.all_digits s.
Proof.
  induction s as [|c s IH]; [done|]. intros Hcs. simpl in Hcs.
  apply andb_true_iff in Hcs as [Hc Hs]. rewrite lower_String by done. simpl.
  by rewrite IH, isdigit_lower_char.
Qed.

(** Digits have no case: two ASCII texts equal up to case, one of digits,
    are equal. *)
Lemma isdigit_same_case s t :
  Py.isascii s = true → Py.isascii t = true →
  Py.lower s = Py.lower t → Py.isdigit s = true → s = t.
Proof.
  intros Hs Ht E Hd.
  assert (Py.all_digits s = true) as Hds by by destruct s.
  assert (Py.all_digits t = true) as Hdt.
  { by rewrite <-all_digits_lower, <-E, all_digits_lower. }
  by rewrite <-(all_digits_lower_id s), <-(all_digits_lower_id t).
Qed.

End letter_case.

(** X17.  What the genre prompt makes of a line that, once trimmed, is
    ASCII and of at most 4300 characters, the most digits that [int]
    converts.  It accepts the line as a number from 1 to the size of the
    catalog, with the entry at that place, and else as a name whose form
    in title case is an entry, with that entry, which equals the line up
    to letter case; any other line is sent back with the message for
    invalid input.  An ASCII entry that is in title case and is not such a
    number is accepted from every line that equals it up to letter
    case. *)
Theorem genre_prompt_ascii (genres : list string) (line : string) :
  Py.isascii (Py.strip line) = true →
  String.length (Py.strip line) ≤ 4300 →
  let number :=
    Py.isdigit (Py.strip line) = true ∧
    (1 ≤ Py.int (Py.strip line) ≤ Z.of_nat (length genres))%Z in
  (∀ g, genre_answer genres line = Accept g ↔
     (number ∧ genres !! Z.to_nat (Py.int (Py.strip line) - 1) = Some g) ∨
     (¬ number ∧ g = Py.title (Py.strip line) ∧ g ∈ genres)) ∧
  (genre_answer genres line = Retry "Invalid input. Try again." ↔
   ¬ number ∧ Py.title (Py.strip line) ∉ genres) ∧
  (∀ g, genre_answer genres line = Accept g →
     g ∈ genres ∧ (number ∨ Py.lower g = Py.lower (Py.strip line))) ∧
  (∀ g, g ∈ genres → Py.isascii g = true → Py.title g = g →
     ¬ (Py.isdigit g = true ∧ (1 ≤ Py.int g ≤ Z.of_nat (length genres))%Z) →
     Py.lower (Py.strip line) = Py.lower g →
     genre_answer genres line = Accept g).
Proof.
  intros Hascii _ number.
  assert (Decision number) as Hdec by (unfold number; apply _).
  assert (genre_answer genres line =
          if decide number then
            match genres !! Z.to_nat (Py.int (Py.strip line) - 1) with
            | Some genre => Accept genre
            | None => Raise "IndexError"
            end
          else if bool_decide (Py.title (Py.strip line) ∈ genres)
          then Accept (Py.title (Py.strip line))
          else Retry "Invalid input. Try again.") as ->.
  { unfold genre_answer. rewrite Hascii. simpl.
    destruct (decide number) as [[Hd Hr]|Hno].
    - by rewrite Hd, bool_decide_eq_true_2.
    - destruct (Py.isdigit (Py.strip line)) eqn:Hd; [|done]. simpl.
      rewrite bool_decide_eq_false_2; [done|]. intros Hr. by apply Hno. }
  assert (number → is_Some (genres !! Z.to_nat (Py.int (Py.strip line) - 1)))
    as Hlookup.
  { intros [_ Hr]. apply lookup_lt_is_Some. lia. }
  split; [|split; [|split]].
  - intros g. destruct (decide number) as [Hn|Hn].
    + destruct (Hlookup Hn) as [g' ->]. split.
      * intros [= ->]. by left.
      * by intros [[_ [= ->]]|[? _]].
    + case_bool_decide as Hin.
      * split; [intros [= <-]; by right|]. by intros [[? _]|(_ & -> & _)].
      * split; [done|]. intros [[? _]|(_ & -> & ?)]; done.
  - destruct (decide number) as [Hn|Hn].
    + destruct (Hlookup Hn) as [g' ->]. split; [done|]. by intros [? _].
    + case_bool_decide as Hin; [|done]. split; [done|]. by intros [_ ?].
  - intros g. destruct (decide number) as [Hn|Hn].
    + destruct (Hlookup Hn) as [g' Hg']. rewrite Hg'. intros [= ->].
      split; [by eapply list_elem_of_lookup_2|by left].
    + case_bool_decide as Hin; [|done]. intros [= <-]. split; [done|]. right.
      by apply lower_title_from.
  - intros g Hg Hgascii Htitle Hindex Hcase.
    assert (¬ number) as Hn.
    { intros [Hd Hr]. apply Hindex.
      by rewrite <-(isdigit_same_case (Py.strip line) g). }
    rewrite decide_False by done.
    rewrite (title_same_case (Py.strip line) g), Htitle by done.
    by rewrite bool_decide_eq_true_2.
Qed.

Lemma genre_prompt_ascii_witness :
  genre_answer ["Comedy"; "Sci-Fi"] " sci-FI " = Accept "Sci-Fi".
Proof.
  refine (proj2 (proj2 (proj2 (genre_prompt_ascii ["Comedy"; "Sci-Fi"] " sci-FI " _ _)))
            "Sci-Fi" _ _ _ _ _).
  - reflexivity.
  - vm_compute. lia.
  - right. left.
  - reflexivity.
  - reflexivity.
  - by intros [? _].
  - reflexivity.
Defined.
